(** * Retro Notes: the notes page controller and its REST client

    A shallow embedding of [notes_frontend/src/api/notesApi.js] and of the
    [NotesPage] component (state, event handlers, effects), followed by the
    properties of the specification that were checked against them.

    Conventions.
    - A JavaScript value is a [jsval].  Numbers are the integral ones ([Z]);
      fractions, NaN and the infinities are not represented.  Arrays and
      objects carry a reference, which is what [===] compares.
    - Strings are Rocq strings of 8-bit characters.  On ASCII text a
      character is one unit of length, white space ([is_space]) is the
      JavaScript WhiteSpace and LineTerminator classes and case conversion
      ([toLowerCase]) is the JavaScript one; beyond ASCII they are not, and
      the properties that say what a text is trimmed, folded or cut to are
      stated for ASCII text ([Text.ascii_only]).
    - What the host provides (clock, date parsing, JSON.stringify,
      encodeURIComponent) is a [Host] instance; nothing is assumed of it.
    - Time, where the code depends on it (the timer of the debounced
      value), is a count of milliseconds.
    - An [async] handler is cut at its [await]: the part before it runs when
      the event fires and names the request it left pending together with the
      variables its continuation closes over; the continuation runs when the
      request settles. *)

From Stdlib Require Import ZArith List String Ascii Bool Lia DecimalString.
From Stdlib Require Import Sorting.Sorted Sorting.Permutation.
Import ListNotations.
Open Scope string_scope.
Open Scope Z_scope.
Set Warnings "-register-all".

(** ** JavaScript values *)

Module JS.

Inductive jsval : Type :=
| JUndefined
| JNull
| JBool (b : bool)
| JNum (n : Z)
| JStr (s : string)
| JArr (ref : nat) (items : list jsval)
| JObj (ref : nat) (fields : list (string * jsval)).

(** A plain object literal built by the program itself: keys in insertion
    order, each key once. *)
Definition obj : Type := list (string * jsval).

Record jserror : Type := { ename : string; emessage : string }.

(** [new Error(m)] *)
Definition Error (m : string) : jserror := {| ename := "Error"; emessage := m |}.
Definition TypeError (m : string) : jserror := {| ename := "TypeError"; emessage := m |}.

Inductive result (A : Type) : Type :=
| Ok (a : A)
| Throw (e : jserror).
Arguments Ok {A} a.
Arguments Throw {A} e.

Definition rbind {A B} (r : result A) (k : A -> result B) : result B :=
  match r with Ok a => k a | Throw e => Throw e end.

(** ToBoolean *)
Definition truthy (v : jsval) : bool :=
  match v with
  | JUndefined | JNull => false
  | JBool b => b
  | JNum n => negb (n =? 0)
  | JStr s => negb (s =? "")%string
  | JArr _ _ | JObj _ _ => true
  end.

Definition nullish (v : jsval) : bool :=
  match v with JUndefined | JNull => true | _ => false end.

(** [a ?? b], for an operand [b] whose evaluation has no effect. *)
Definition coalesce (a b : jsval) : jsval := if nullish a then b else a.

(** [a || b], likewise. *)
Definition or_else (a b : jsval) : jsval := if truthy a then a else b.

(** [a === b] *)
Definition strict_eq (a b : jsval) : bool :=
  match a, b with
  | JUndefined, JUndefined => true
  | JNull, JNull => true
  | JBool x, JBool y => Bool.eqb x y
  | JNum x, JNum y => x =? y
  | JStr x, JStr y => (x =? y)%string
  | JArr r _, JArr r' _ => Nat.eqb r r'
  | JObj r _, JObj r' _ => Nat.eqb r r'
  | _, _ => false
  end.

(** Lookup of an own property in a list of fields. *)
Fixpoint lookup (k : string) (fs : list (string * jsval)) : option jsval :=
  match fs with
  | [] => None
  | (k', v) :: fs' => if (k =? k')%string then Some v else lookup k fs'
  end.

(** [o.k] on an object literal of the program. *)
Definition field (k : string) (o : obj) : jsval :=
  match lookup k o with Some v => v | None => JUndefined end.

(** [v.k] for one of the data keys the program reads (none of them lives on
    a prototype): a TypeError on [null] and [undefined], the own property of
    an object, [undefined] on everything else. *)
Definition prop (v : jsval) (k : string) : result jsval :=
  match v with
  | JUndefined => Throw (TypeError ("Cannot read properties of undefined (reading '" ++ k ++ "')"))
  | JNull => Throw (TypeError ("Cannot read properties of null (reading '" ++ k ++ "')"))
  | JObj _ fs => Ok (match lookup k fs with Some x => x | None => JUndefined end)
  | _ => Ok JUndefined
  end.

(** [v?.k] *)
Definition opt_prop (v : jsval) (k : string) : result jsval :=
  if nullish v then Ok JUndefined else prop v k.

(** [o[k] = v] on an object literal: an existing key keeps its place. *)
Fixpoint put (k : string) (v : jsval) (o : obj) : obj :=
  match o with
  | [] => [(k, v)]
  | (k', v') :: o' => if (k =? k')%string then (k, v) :: o' else (k', v') :: put k v o'
  end.

(** Copying the own properties of [src] onto [target], in order. *)
Definition assign (target src : obj) : obj :=
  fold_left (fun acc kv => put (fst kv) (snd kv) acc) src target.

(** [{ ...a, ...b }] *)
Definition spread2 (a b : obj) : obj := assign (assign [] a) b.

(** *** Strings *)

(** White space: blank, tab, line feed, vertical tab, form feed, carriage
    return.  These are all the ASCII characters that [trim], [trimEnd] and
    the class [\s] take for white space; the ones beyond ASCII (the no-break
    space and the like) are not covered. *)
Definition is_space (c : ascii) : bool :=
  let n := nat_of_ascii c in
  (Nat.eqb n 32 || (Nat.leb 9 n && Nat.leb n 13))%bool.

Fixpoint dropStartWhile (p : ascii -> bool) (s : string) : string :=
  match s with
  | EmptyString => EmptyString
  | String c s' => if p c then dropStartWhile p s' else s
  end.

Fixpoint dropEndWhile (p : ascii -> bool) (s : string) : string :=
  match s with
  | EmptyString => EmptyString
  | String c s' =>
      match dropEndWhile p s' with
      | EmptyString => if p c then EmptyString else String c EmptyString
      | t => String c t
      end
  end.

Definition trimEnd (s : string) : string := dropEndWhile is_space s.
Definition trim (s : string) : string := dropStartWhile is_space (trimEnd s).

(** Lower case of an ASCII character; a byte beyond ASCII is left as it is,
    so [toLowerCase] is the JavaScript method on ASCII text only. *)
Definition lower (c : ascii) : ascii :=
  let n := nat_of_ascii c in
  if (Nat.leb 65 n && Nat.leb n 90)%bool then ascii_of_nat (n + 32) else c.

Fixpoint toLowerCase (s : string) : string :=
  match s with
  | EmptyString => EmptyString
  | String c s' => String (lower c) (toLowerCase s')
  end.

(** [s.startsWith(p)] *)
Definition startsWith (p s : string) : bool := String.prefix p s.

(** [s.includes(q)] *)
Fixpoint includes (q s : string) : bool :=
  (String.prefix q s ||
   match s with
   | EmptyString => false
   | String _ s' => includes q s'
   end)%bool.

(** A string method called on a value: strings have it, other non-nullish
    values do not (`x.trim is not a function`). *)
Definition call_str (name : string) (f : string -> string) (v : jsval) : result string :=
  match v with
  | JStr s => Ok (f s)
  | JUndefined | JNull => Throw (TypeError ("Cannot read properties of " ++ (if strict_eq v JNull then "null" else "undefined") ++ " (reading '" ++ name ++ "')"))
  | _ => Throw (TypeError (name ++ " is not a function"))
  end.

(** *** Errors as text *)

(** [String(e)] for an error object (Error.prototype.toString). *)
Definition error_toString (e : jserror) : string :=
  if (emessage e =? "")%string then ename e
  else if (ename e =? "")%string then emessage e
  else ename e ++ ": " ++ emessage e.

(** [e?.message || String(e)] *)
Definition message_of (e : jserror) : string :=
  if (emessage e =? "")%string then error_toString e else emessage e.

(** *** ToString *)

(** [String(v)], and a value spliced into a template literal.  An array is
    its elements joined by commas, null and undefined ones as nothing; a
    plain object is the text [[object Object]]. *)
Fixpoint String_ (v : jsval) : string :=
  match v with
  | JUndefined => "undefined"
  | JNull => "null"
  | JBool b => if b then "true" else "false"
  | JNum n => NilZero.string_of_int (Z.to_int n)
  | JStr s => s
  | JArr _ items =>
      (fix join (l : list jsval) : string :=
         match l with
         | [] => ""
         | x :: rest =>
             (if nullish x then "" else String_ x)
             ++ match rest with [] => "" | _ => "," ++ join rest end
         end) items
  | JObj _ _ => "[object Object]"
  end.

(** *** The host *)

Class Host : Type := {
  (** [new Date().toISOString()] at the n-th reading of the clock *)
  clock : nat -> string;
  (** [Date.parse]; [None] is NaN *)
  dateParse : string -> option Z;
  jsonStringify : jsval -> string;
  encodeURIComponent : string -> string
}.

(** [new Date(v).getTime()]; [None] is NaN. *)
Definition getTime `{Host} (v : jsval) : option Z :=
  match v with
  | JUndefined => None
  | JNull => Some 0
  | JBool b => Some (if b then 1 else 0)
  | JNum n => if Z.abs n <=? 8640000000000000 then Some n else None
  | JStr s => dateParse s
  | JArr _ _ | JObj _ _ => dateParse (String_ v)
  end.

(** *** Array.prototype.sort

    The comparator returns a number ([None] is NaN, which [sort] reads as
    [+0]).  [sort] is stable; it is modelled as the stable insertion sort.
    On a list that the comparator orders consistently (no comparison is
    NaN) every stable sort returns this list, so there [sort] is the code's
    result.  On the other lists the order is the choice of the engine's
    algorithm; general statements about [sort] are therefore made for
    consistent comparators only. *)

Definition goes_first {A} (cmp : A -> A -> option Z) (a b : A) : bool :=
  match cmp a b with Some d => d <=? 0 | None => true end.

Fixpoint sort_insert {A} (cmp : A -> A -> option Z) (x : A) (l : list A) : list A :=
  match l with
  | [] => [x]
  | y :: l' => if goes_first cmp x y then x :: l else y :: sort_insert cmp x l'
  end.

Fixpoint sort {A} (cmp : A -> A -> option Z) (l : list A) : list A :=
  match l with
  | [] => []
  | x :: l' => sort_insert cmp x (sort cmp l')
  end.

(** [arr.filter(p)] for a predicate that may throw. *)
Fixpoint filterR {A} (p : A -> result bool) (l : list A) : result (list A) :=
  match l with
  | [] => Ok []
  | x :: l' =>
      rbind (p x) (fun keep =>
      rbind (filterR p l') (fun rest =>
      Ok (if keep then x :: rest else rest)))
  end.

End JS.

(** ** The API client ([api/notesApi.js]) *)

Module Api.
Import JS.

(** [process.env] as the client reads it; [None] is an unset variable. *)
Record env : Type := {
  REACT_APP_API_BASE : option string;
  REACT_APP_BACKEND_URL : option string
}.

(** What [fetch] is called with. *)
Record fetch_call : Type := {
  url : string;
  method : string;
  body : option string;
  headers : list (string * string)
}.

(** The [Response] as the client uses it: the status line, the content-type
    header ([None] when [headers.get] gives null) and what [json()] and
    [text()] settle to. *)
Record response : Type := {
  status : Z;
  statusText : string;
  content_type : option string;
  json : result jsval;
  text : result string
}.

(** [response.ok] *)
Definition ok (r : response) : bool := (200 <=? status r) && (status r <=? 299).

(** The network: what a call to [fetch] settles to. *)
Definition network : Type := fetch_call -> result response.

Record options : Type := { o_method : string; o_body : option string }.

Definition is_slash (c : ascii) : bool := Ascii.eqb c "/"%char.

(** [a || b] for an environment variable [a]. *)
Definition env_or (a : option string) (b : string) : string :=
  match a with
  | Some s => if (s =? "")%string then b else s
  | None => b
  end.

Definition getApiBase (e : env) : string :=
  let raw := env_or (REACT_APP_API_BASE e) (env_or (REACT_APP_BACKEND_URL e) "") in
  dropEndWhile is_slash raw.

Definition parseJsonOrText (r : response) : result jsval :=
  let contentType := match content_type r with Some s => s | None => "" end in
  if includes "application/json" contentType then json r
  else rbind (text r) (fun s => Ok (JStr s)).

(** The response declares a JSON content type. *)
Definition declares_json (r : response) : bool :=
  includes "application/json" (match content_type r with Some s => s | None => "" end).

Definition missing_base : jserror :=
  Error "Missing API base URL. Set REACT_APP_API_BASE (preferred) or REACT_APP_BACKEND_URL in the environment.".

Section Client.
Context `{Host}.
Variable e : env.
Variable net : network.

(** [request(path, options)]: the value the promise settles to, and the
    calls to [fetch] that were made on the way. *)
Definition request (path : string) (o : options) : result jsval * list fetch_call :=
  let base := getApiBase e in
  if (base =? "")%string then (Throw missing_base, [])
  else
    let call := {| url := base ++ (if startsWith "/" path then "" else "/") ++ path;
                   method := o_method o;
                   body := o_body o;
                   headers := [("Content-Type", "application/json")] |} in
    match net call with
    | Throw err =>
        (Throw (Error ("Network error contacting backend at " ++ base ++ ". " ++ message_of err)),
         [call])
    | Ok resp =>
        (if negb (ok resp) then
           rbind (parseJsonOrText resp) (fun payload =>
           let details := match payload with JStr s => s | _ => jsonStringify payload end in
           Throw (Error ("API error " ++ String_ (JNum (status resp)) ++ " "
                         ++ statusText resp ++ ": " ++ details)))
         else if status resp =? 204 then Ok JNull
         else parseJsonOrText resp,
         [call])
    end.

(** [typeof v === "string"] *)
Definition is_string (v : jsval) : bool :=
  match v with JStr _ => true | _ => false end.

(** [!note || typeof note.title !== "string" || typeof note.content !== "string"];
    the properties are read only of a truthy [note], where reading cannot throw. *)
Definition bad_payload (note : jsval) : bool :=
  let read k := match prop note k with Ok v => v | Throw _ => JUndefined end in
  negb (truthy note) || negb (is_string (read "title")) || negb (is_string (read "content")).

Definition invalid_payload : jserror :=
  Error "Invalid note payload. Expected {title: string, content: string}.".

Definition listNotes : result jsval * list fetch_call :=
  request "/notes" {| o_method := "GET"; o_body := None |}.

Definition createNote (note : jsval) : result jsval * list fetch_call :=
  if bad_payload note then (Throw invalid_payload, [])
  else request "/notes" {| o_method := "POST"; o_body := Some (jsonStringify note) |}.

Definition updateNote (id note : jsval) : result jsval * list fetch_call :=
  if negb (truthy id) then (Throw (Error "Missing note id."), [])
  else if bad_payload note then (Throw invalid_payload, [])
  else request ("/notes/" ++ encodeURIComponent (String_ id))
               {| o_method := "PUT"; o_body := Some (jsonStringify note) |}.

Definition deleteNote (id : jsval) : result jsval * list fetch_call :=
  if negb (truthy id) then (Throw (Error "Missing note id."), [])
  else request ("/notes/" ++ encodeURIComponent (String_ id))
               {| o_method := "DELETE"; o_body := None |}.

(** The four operations of the client, with their arguments. *)
Inductive operation : Type :=
| OpList
| OpCreate (note : jsval)
| OpUpdate (id note : jsval)
| OpDelete (id : jsval).

Definition invoke (op : operation) : result jsval * list fetch_call :=
  match op with
  | OpList => listNotes
  | OpCreate note => createNote note
  | OpUpdate id note => updateNote id note
  | OpDelete id => deleteNote id
  end.

(** The arguments pass the operation's own checks. *)
Definition accepted (op : operation) : bool :=
  match op with
  | OpList => true
  | OpCreate note => negb (bad_payload note)
  | OpUpdate id note => truthy id && negb (bad_payload note)
  | OpDelete id => truthy id
  end.

End Client.

(** The text of the error for a response that is not [ok]. *)
Definition api_error `{Host} (resp : response) (details : string) : jserror :=
  Error ("API error " ++ String_ (JNum (status resp)) ++ " " ++ statusText resp ++ ": " ++ details).

End Api.

(** ** The notes page ([pages/NotesPage]) *)

Module Page.
Import JS.

Inductive toast_kind : Type := KError | KSuccess.

Record toast_t : Type := { kind : toast_kind; message : string }.

(** The component's state: one field per [useState], and [cancelled], the
    variable the load effect shares with its cleanup. *)
Record state : Type := mkState {
  notes : list obj;
  selectedId : jsval;
  search : string;
  debouncedSearch : string;
  draftTitle : jsval;
  draftContent : jsval;
  isLoading : bool;
  isSaving : bool;
  isDeleting : bool;
  toast : option toast_t;
  cancelled : bool
}.

(** The values of the [useState] calls at the first render. *)
Definition initial : state :=
  {| notes := []; selectedId := JNull; search := ""; debouncedSearch := "";
     draftTitle := JStr ""; draftContent := JStr "";
     isLoading := true; isSaving := false; isDeleting := false;
     toast := None; cancelled := false |}.

(** *** Handlers as state transformers that may throw *)

Definition M (A : Type) : Type := state -> state * result A.

Definition ret {A} (a : A) : M A := fun s => (s, Ok a).

Definition bind {A B} (m : M A) (k : A -> M B) : M B :=
  fun s => match m s with
           | (s', Ok a) => k a s'
           | (s', Throw e) => (s', Throw e)
           end.

Definition lift {A} (r : result A) : M A := fun s => (s, r).

Definition gets {A} (f : state -> A) : M A := fun s => (s, Ok (f s)).

Definition modify (f : state -> state) : M unit := fun s => (f s, Ok tt).

(** [try { m } catch (e) { h e }] *)
Definition try_catch (m : M unit) (h : jserror -> M unit) : M unit :=
  fun s => match m s with
           | (s', Throw e) => h e s'
           | done => done
           end.

(** [m] followed by [finally { f }] *)
Definition finally (m : M unit) (f : M unit) : M unit :=
  fun s => let (s', r) := m s in
           match f s' with
           | (s'', Ok _) => (s'', r)
           | (s'', Throw e) => (s'', Throw e)
           end.

Declare Scope js_scope.
Delimit Scope js_scope with js.
Notation "x <- m ;; k" := (bind m (fun x => k))
  (at level 61, m at next level, right associativity) : js_scope.
Notation "m ;; k" := (bind m (fun _ => k))
  (at level 61, right associativity) : js_scope.
Open Scope js_scope.

Definition setNotes (f : list obj -> list obj) : M unit :=
  modify (fun s => mkState (f (notes s)) (selectedId s) (search s) (debouncedSearch s)
    (draftTitle s) (draftContent s) (isLoading s) (isSaving s) (isDeleting s) (toast s) (cancelled s)).

Definition setSelectedId (f : jsval -> jsval) : M unit :=
  modify (fun s => mkState (notes s) (f (selectedId s)) (search s) (debouncedSearch s)
    (draftTitle s) (draftContent s) (isLoading s) (isSaving s) (isDeleting s) (toast s) (cancelled s)).

Definition setSearch (v : string) : M unit :=
  modify (fun s => mkState (notes s) (selectedId s) v (debouncedSearch s)
    (draftTitle s) (draftContent s) (isLoading s) (isSaving s) (isDeleting s) (toast s) (cancelled s)).

Definition setDebounced (v : string) : M unit :=
  modify (fun s => mkState (notes s) (selectedId s) (search s) v
    (draftTitle s) (draftContent s) (isLoading s) (isSaving s) (isDeleting s) (toast s) (cancelled s)).

Definition setDraftTitle (v : jsval) : M unit :=
  modify (fun s => mkState (notes s) (selectedId s) (search s) (debouncedSearch s)
    v (draftContent s) (isLoading s) (isSaving s) (isDeleting s) (toast s) (cancelled s)).

Definition setDraftContent (v : jsval) : M unit :=
  modify (fun s => mkState (notes s) (selectedId s) (search s) (debouncedSearch s)
    (draftTitle s) v (isLoading s) (isSaving s) (isDeleting s) (toast s) (cancelled s)).

Definition setIsLoading (v : bool) : M unit :=
  modify (fun s => mkState (notes s) (selectedId s) (search s) (debouncedSearch s)
    (draftTitle s) (draftContent s) v (isSaving s) (isDeleting s) (toast s) (cancelled s)).

Definition setIsSaving (v : bool) : M unit :=
  modify (fun s => mkState (notes s) (selectedId s) (search s) (debouncedSearch s)
    (draftTitle s) (draftContent s) (isLoading s) v (isDeleting s) (toast s) (cancelled s)).

Definition setIsDeleting (v : bool) : M unit :=
  modify (fun s => mkState (notes s) (selectedId s) (search s) (debouncedSearch s)
    (draftTitle s) (draftContent s) (isLoading s) (isSaving s) v (toast s) (cancelled s)).

Definition setToast (v : option toast_t) : M unit :=
  modify (fun s => mkState (notes s) (selectedId s) (search s) (debouncedSearch s)
    (draftTitle s) (draftContent s) (isLoading s) (isSaving s) (isDeleting s) v (cancelled s)).

(** The cleanup of the load effect: [cancelled = true]. *)
Definition cancel : M unit :=
  modify (fun s => mkState (notes s) (selectedId s) (search s) (debouncedSearch s)
    (draftTitle s) (draftContent s) (isLoading s) (isSaving s) (isDeleting s) (toast s) true).

Definition setSuccess (m : string) : M unit :=
  setToast (Some {| kind := KSuccess; message := m |}).

Definition setError (err : jserror) : M unit :=
  setToast (Some {| kind := KError; message := message_of err |}).

Section Controller.
Context `{Host}.

(** *** Normalization *)

(** [nowIso()] at clock reading [t]: the text, and the next reading. *)
Definition nowIso (t : nat) : jsval * nat := (JStr (clock t), S t).

(** [a ?? b] where reading [a] may throw. *)
Definition orR (a b : result jsval) : result jsval :=
  rbind a (fun x => if nullish x then b else Ok x).

(** [x ?? nowIso()]: the clock is read only when [x] is null or undefined. *)
Definition or_now (x : jsval) (t : nat) : jsval * nat :=
  if nullish x then nowIso t else (x, t).

(** [normalizeNote(note)] from clock reading [t]: the canonical note and the
    next clock reading. *)
Definition normalizeNote (t : nat) (note : jsval) : result (obj * nat) :=
  rbind (orR (prop note "id") (orR (prop note "_id") (orR (prop note "noteId") (prop note "uuid"))))
    (fun id =>
  rbind (orR (prop note "title") (Ok (JStr ""))) (fun title =>
  rbind (orR (prop note "content") (Ok (JStr ""))) (fun content =>
  rbind (orR (prop note "updatedAt") (orR (prop note "updated_at")
          (orR (prop note "modifiedAt") (prop note "modified_at")))) (fun u =>
  let (updatedAt, t1) := or_now u t in
  rbind (orR (prop note "createdAt") (prop note "created_at")) (fun c =>
  let (createdAt, t2) := or_now c t1 in
  Ok ([("id", id); ("title", title); ("content", content);
       ("updatedAt", updatedAt); ("createdAt", createdAt); ("raw", note)], t2)))))).

(** [items.map(normalizeNote)] *)
Fixpoint normalizeAll (t : nat) (items : list jsval) : result (list obj * nat) :=
  match items with
  | [] => Ok ([], t)
  | x :: rest =>
      rbind (normalizeNote t x) (fun nt =>
      rbind (normalizeAll (snd nt) rest) (fun lt =>
      Ok (fst nt :: fst lt, snd lt)))
  end.

(** [arr.map(normalizeNote)] for whatever [arr] is. *)
Definition map_normalize (t : nat) (arr : jsval) : result (list obj * nat) :=
  match arr with
  | JArr _ items => normalizeAll t items
  | JUndefined | JNull => rbind (prop arr "map") (fun _ => Ok ([], t))
  | _ => Throw (TypeError "arr.map is not a function")
  end.

(** *** Derived values of a render *)

(** [notes.find((n) => n.id === selectedId) || null] *)
Definition selected (s : state) : option obj :=
  find (fun n => strict_eq (field "id" n) (selectedId s)) (notes s).

(** [new Date(a.updatedAt || a.createdAt || 0).getTime()] *)
Definition sortTime (a : obj) : option Z :=
  getTime (or_else (or_else (field "updatedAt" a) (field "createdAt" a)) (JNum 0)).

(** The comparator of the list: [bt - at]. *)
Definition newestFirst (a b : obj) : option Z :=
  match sortTime b, sortTime a with
  | Some bt, Some at_ => Some (bt - at_)
  | _, _ => None
  end.

(** [(v || "").toLowerCase().includes(q)] *)
Definition mentions (q : string) (v : jsval) : result bool :=
  rbind (call_str "toLowerCase" toLowerCase (or_else v (JStr ""))) (fun s => Ok (includes q s)).

(** The predicate of the filter: title or content mentions [q]. *)
Definition matches (q : string) (n : obj) : result bool :=
  rbind (mentions q (field "title" n)) (fun hit =>
  if hit then Ok true else mentions q (field "content" n)).

(** The [filteredNotes] memo, for a collection and a debounced query. *)
Definition filteredNotes (ns : list obj) (query : string) : result (list obj) :=
  let q := toLowerCase (trim query) in
  let base := sort newestFirst ns in
  if (q =? "")%string then Ok base else filterR (matches q) base.

Definition hasEdits (s : state) : bool :=
  match selected s with
  | None => false
  | Some n =>
      negb (strict_eq (or_else (draftTitle s) (JStr "")) (or_else (field "title" n) (JStr "")))
      || negb (strict_eq (or_else (draftContent s) (JStr "")) (or_else (field "content" n) (JStr "")))
  end.

(** *** Effects *)

(** The draft-sync effect (dependency: [selectedId]). *)
Definition syncDraft : M unit :=
  sel <- gets selected ;;
  match sel with
  | None => setDraftTitle (JStr "") ;; setDraftContent (JStr "")
  | Some n =>
      setDraftTitle (or_else (field "title" n) (JStr "")) ;;
      setDraftContent (or_else (field "content" n) (JStr ""))
  end.

(** The render that follows a batch of updates: the state before the batch
    and after it; the draft-sync effect runs when [selectedId] changed. *)
Definition commit (before after : state) : state :=
  if strict_eq (selectedId before) (selectedId after) then after
  else fst (syncDraft after).

(** *** Requests left pending at an [await] *)

(** The request, and what the continuation closes over. *)
Inductive pending : Type :=
| PList                                              (* load: listNotes() *)
| PCreate (title content : string)                   (* handleSave: createNote({title, content}) *)
| PUpdate (sid : jsval) (title content : string)     (* handleSave: updateNote(selectedId, ...) *)
| PDelete (sid : jsval) (notes0 : list obj).         (* handleDelete: deleteNote(selectedId) *)

(** *** The load effect *)

(** [load()] up to its [await]. *)
Definition load : M (option pending) :=
  setIsLoading true ;;
  setToast None ;;
  ret (Some PList).

(** [Array.isArray(res) ? res : res?.notes || []] *)
Definition arr_of (res : jsval) : result jsval :=
  match res with
  | JArr _ _ => Ok res
  | _ => rbind (opt_prop res "notes") (fun v => Ok (or_else v (JArr 0 [])))
  end.

(** [normalized[0]?.id ?? null] *)
Definition first_id (ns : list obj) : jsval :=
  match ns with
  | [] => JNull
  | n :: _ => coalesce (field "id" n) JNull
  end.

(** [load()] from its [await] on, when [listNotes()] settled to [r]. *)
Definition load_resume (t : nat) (r : result jsval) : M unit :=
  finally
    (try_catch
       (res <- lift r ;;
        arr <- lift (arr_of res) ;;
        normalized <- lift (map_normalize t arr) ;;
        c <- gets cancelled ;;
        if c then ret tt
        else
          setNotes (fun _ => fst normalized) ;;
          setSelectedId (fun prev => coalesce prev (first_id (fst normalized))))
       (fun err =>
          c <- gets cancelled ;;
          if c then ret tt else setError err))
    (c <- gets cancelled ;;
     if c then ret tt else setIsLoading false).

(** *** Event handlers *)

Definition handleNew : M (option pending) :=
  setToast None ;;
  setSelectedId (fun _ => JNull) ;;
  setDraftTitle (JStr "Untitled") ;;
  setDraftContent (JStr "") ;;
  ret None.

(** [handleSave()] up to its [await], in the render [c]. *)
Definition handleSave (c : state) : M (option pending) :=
  setToast None ;;
  title <- lift (call_str "trim" trim (or_else (draftTitle c) (JStr ""))) ;;
  content <- lift (call_str "trimEnd" trimEnd (or_else (draftContent c) (JStr ""))) ;;
  if (title =? "")%string then
    setError (Error "Title is required.") ;;
    ret None
  else
    setIsSaving true ;;
    if negb (truthy (selectedId c)) then ret (Some (PCreate title content))
    else ret (Some (PUpdate (selectedId c) title content)).

(** [handleSave()] from its [await] on. *)
Definition handleSave_resume (p : pending) (t : nat) (r : result jsval) : M unit :=
  finally
    (try_catch
       (match p with
        | PUpdate sid _ _ =>
            updated <- lift r ;;
            normalized <- lift (normalizeNote t updated) ;;
            setNotes (map (fun n => if strict_eq (field "id" n) sid
                                    then spread2 n (fst normalized) else n)) ;;
            setSuccess "Note saved."
        | _ =>
            created <- lift r ;;
            normalized <- lift (normalizeNote t created) ;;
            setNotes (fun prev => fst normalized :: prev) ;;
            setSelectedId (fun _ => field "id" (fst normalized)) ;;
            setSuccess "Note created."
        end)
       setError)
    (setIsSaving false).

(** [handleDelete()] up to its [await], in the render [c]. *)
Definition handleDelete (c : state) : M (option pending) :=
  if negb (truthy (selectedId c)) then
    setError (Error "Select a note to delete.") ;;
    ret None
  else
    setToast None ;;
    setIsDeleting true ;;
    ret (Some (PDelete (selectedId c) (notes c))).

(** [n.id !== id] *)
Definition other_than (id : jsval) (n : obj) : bool := negb (strict_eq (field "id" n) id).

(** [handleDelete()] from its [await] on: [sid] and [notes0] are the
    [selectedId] and [notes] of the render the handler ran in. *)
Definition handleDelete_resume (sid : jsval) (notes0 : list obj) (r : result jsval) : M unit :=
  finally
    (try_catch
       (_ <- lift r ;;
        setNotes (filter (other_than sid)) ;;
        setSelectedId (fun prev => first_id (filter (other_than prev) notes0)) ;;
        setSuccess "Note deleted.")
       setError)
    (setIsDeleting false).

(** The Reset button of the editor, in the render [c]. *)
Definition handleReset (c : state) : M (option pending) :=
  match selected c with
  | None => setDraftTitle (JStr "Untitled") ;; setDraftContent (JStr "")
  | Some n =>
      setDraftTitle (or_else (field "title" n) (JStr "")) ;;
      setDraftContent (or_else (field "content" n) (JStr ""))
  end ;;
  setToast None ;;
  ret None.

(** *** What the rendered controls allow *)

(** The [disabled] attribute of the header's Save button; rendering throws
    when the draft title is not a string and has to be trimmed. *)
Definition saveDisabled (s : state) : result bool :=
  if isSaving s then Ok true
  else if negb (truthy (selectedId s)) then
    rbind (call_str "trim" trim (or_else (draftTitle s) (JStr "")))
          (fun t => Ok (t =? "")%string)
  else Ok (negb (hasEdits s)).

(** The [disabled] attribute of the Delete button. *)
Definition deleteDisabled (s : state) : bool :=
  isDeleting s || negb (truthy (selectedId s)).

(** The [disabled] attribute of the form's submit button, and of Reset. *)
Definition submitDisabled (s : state) : bool := isSaving s.

(** The title input is [required]: the form does not submit while its value
    is the empty string. *)
Definition titleMissing (s : state) : bool := (String_ (draftTitle s) =? "")%string.

(** *** Events *)

Inductive event : Type :=
| ClickNew
| ClickSave                       (* the header's Save button *)
| SubmitForm                      (* the editor form: its submit button, or Enter in the title *)
| ClickDelete
| ClickReset
| OpenNote (i : nat)              (* the i-th card of the visible list *)
| InputTitle (v : string)
| InputContent (v : string)
| InputSearch (v : string)
| DebounceElapsed                 (* the timer of useDebouncedValue ran *)
| Unmount
| Settled (p : pending) (t : nat) (r : result jsval).

(** The cards on screen: none while loading, else one per note of
    [filteredNotes].  A render in which the filter throws (a title or a
    content that is no string) shows no page at all; [visible] is then the
    empty list.  What a card displays ([View.snippet]) is not part of it. *)
Definition visible (s : state) : list obj :=
  if isLoading s then []
  else match filteredNotes (notes s) (debouncedSearch s) with
       | Ok l => l
       | Throw _ => []
       end.

(** Whether the page, as rendered in [s], lets the event happen. *)
Definition can_fire (s : state) (ev : event) : bool :=
  match ev with
  | ClickSave => match saveDisabled s with Ok d => negb d | Throw _ => false end
  | SubmitForm => negb (submitDisabled s) && negb (titleMissing s)
  | ClickDelete => negb (deleteDisabled s)
  | ClickReset => negb (submitDisabled s)
  | OpenNote i => match nth_error (visible s) i with Some _ => true | None => false end
  | _ => true
  end.

(** The code the event runs, in the render [c]. *)
Definition handler (c : state) (ev : event) : M (option pending) :=
  match ev with
  | ClickNew => handleNew
  | ClickSave | SubmitForm => handleSave c
  | ClickDelete => handleDelete c
  | ClickReset => handleReset c
  | OpenNote i =>
      match nth_error (visible c) i with
      | Some n => setSelectedId (fun _ => field "id" n)
      | None => ret tt
      end ;; ret None
  | InputTitle v => setDraftTitle (JStr v) ;; ret None
  | InputContent v => setDraftContent (JStr v) ;; ret None
  | InputSearch v => setSearch v ;; ret None
  | DebounceElapsed => setDebounced (search c) ;; ret None
  | Unmount => cancel ;; ret None
  | Settled PList t r => load_resume t r ;; ret None
  | Settled (PDelete sid notes0) _ r => handleDelete_resume sid notes0 r ;; ret None
  | Settled p t r => handleSave_resume p t r ;; ret None
  end.

(** What an event leaves behind: the state after the render that follows it,
    the request it left pending, and the exception that escaped it. *)
Record outcome : Type := {
  next : state;
  issued : option pending;
  escaped : option jserror
}.

Definition run (h : M (option pending)) (s : state) : outcome :=
  let (s', r) := h s in
  {| next := commit s s';
     issued := match r with Ok p => p | Throw _ => None end;
     escaped := match r with Ok _ => None | Throw err => Some err end |}.

Definition step (s : state) (ev : event) : outcome := run (handler s ev) s.

(** Mounting: the first render and its two effects, in the order they are
    declared. *)
Definition mount : outcome :=
  let (s, r) := (p <- load ;; syncDraft ;; ret p) initial in
  {| next := s;
     issued := match r with Ok p => p | Throw _ => None end;
     escaped := match r with Ok _ => None | Throw err => Some err end |}.

(** The client operation behind a pending request; the payload is the
    object literal [{ title, content }]. *)
Definition operation_of (p : pending) : Api.operation :=
  let payload title content := JObj 0 [("title", JStr title); ("content", JStr content)] in
  match p with
  | PList => Api.OpList
  | PCreate title content => Api.OpCreate (payload title content)
  | PUpdate sid title content => Api.OpUpdate sid (payload title content)
  | PDelete sid _ => Api.OpDelete sid
  end.

(** The flag that shows a request of this kind in flight. *)
Definition in_flight (p : pending) (s : state) : bool :=
  match p with
  | PList => isLoading s
  | PCreate _ _ | PUpdate _ _ _ => isSaving s
  | PDelete _ _ => isDeleting s
  end.


(** A list response that is neither an array nor an object whose [notes]
    field is truthy. *)
Definition unrecognized (res : jsval) : bool :=
  match res with
  | JArr _ _ => false
  | JObj _ fs => negb (truthy (match lookup "notes" fs with Some v => v | None => JUndefined end))
  | _ => true
  end.

End Controller.

(** The part of the state an action must not touch when it fails. *)
Definition same_data (a b : state) : Prop :=
  notes a = notes b /\ selectedId a = selectedId b /\
  draftTitle a = draftTitle b /\ draftContent a = draftContent b.

Definition error_toast (m : string) : option toast_t :=
  Some {| kind := KError; message := m |}.

Definition success_toast (m : string) : option toast_t :=
  Some {| kind := KSuccess; message := m |}.

(** The specification's reading of "the first present of several fields": the
    value of the first key, in the order given, that the record carries with
    a value other than null or undefined. *)
Fixpoint first_present (keys : list string) (fs : list (string * jsval)) : option jsval :=
  match keys with
  | [] => None
  | k :: ks =>
      match lookup k fs with
      | Some v => if nullish v then first_present ks fs else Some v
      | None => first_present ks fs
      end
  end.

(** The note has a sort time (its timestamp is a valid date). *)
Definition dated `{Host} (n : obj) : Prop := sortTime n <> None.

(** [a] is not listed before a newer [b]: their sort times, when both
    exist, do not increase from [a] to [b]. *)
Definition not_before `{Host} (a b : obj) : Prop :=
  match sortTime a, sortTime b with
  | Some x, Some y => y <= x
  | _, _ => True
  end.

(** Both notes have a sort time, and [a]'s is at least [b]'s. *)
Definition newer_or_same `{Host} (a b : obj) : Prop :=
  match sortTime a, sortTime b with
  | Some x, Some y => y <= x
  | _, _ => False
  end.

(** The text of a value that is a string. *)
Definition text_of (v : jsval) : string :=
  match v with JStr s => s | _ => "" end.

(** The note's title and content are strings. *)
Definition texty (n : obj) : Prop :=
  (exists t, field "title" n = JStr t) /\ (exists c, field "content" n = JStr c).

(** The specification's filter: the title or the content contains [q],
    letter case aside. *)
Definition contains_text (q : string) (n : obj) : bool :=
  includes q (toLowerCase (text_of (field "title" n)))
  || includes q (toLowerCase (text_of (field "content" n))).

(** The field names a server may use, in the order the page tries them. *)
Definition id_keys : list string := ["id"; "_id"; "noteId"; "uuid"].
Definition updated_keys : list string := ["updatedAt"; "updated_at"; "modifiedAt"; "modified_at"].
Definition created_keys : list string := ["createdAt"; "created_at"].

(** The keys of a canonical note. *)
Definition canonical_keys : list string :=
  ["id"; "title"; "content"; "updatedAt"; "createdAt"; "raw"].

(** An object holds each of its keys once. *)
Definition unique_keys (o : obj) : Prop := NoDup (map fst o).

(** The chain [o.k ?? o.k1 ?? ... ?? o.kn] of property reads. *)
Definition chain (o : jsval) (k : string) (ks : list string) : result jsval :=
  fold_right (fun k' rest => fun first => orR (prop o first) (rest k'))
             (fun last => prop o last) ks k.

End Page.

(** ** What a note card shows ([snippet]) *)

Module View.
Import JS.

(** [s.replace(/\s+/g, " ")]: every run of white space becomes one blank;
    [in_run] tells that the character before was white space. *)
Fixpoint collapse_from (in_run : bool) (s : string) : string :=
  match s with
  | EmptyString => EmptyString
  | String c s' =>
      if is_space c then
        if in_run then collapse_from true s' else String " " (collapse_from true s')
      else String c (collapse_from false s')
  end.

Definition collapse (s : string) : string := collapse_from false s.

(** The character U+2026, as its three bytes. *)
Definition ellipsis : string :=
  String (ascii_of_nat 226) (String (ascii_of_nat 128) (String (ascii_of_nat 166) EmptyString)).

(** [snippet(text)].  Lengths and cuts count characters of the Rocq string;
    on ASCII text these are the units JavaScript counts. *)
Definition snippet (text : jsval) : result string :=
  rbind (call_str "trim" trim (or_else text (JStr ""))) (fun t =>
  let s := collapse t in
  if (s =? "")%string then Ok "No content yet."
  else Ok (if Nat.ltb 120 (String.length s) then substring 0 120 s ++ ellipsis else s)).

(** No white space but single blanks, none of them after white space;
    [after_space] tells that the character before was white space (or that
    the text starts here). *)
Fixpoint tidy_from (after_space : bool) (s : string) : bool :=
  match s with
  | EmptyString => true
  | String c s' =>
      if is_space c then Ascii.eqb c " " && negb after_space && tidy_from true s'
      else tidy_from false s'
  end.

(** A text with no white space at its start, no line break or tab, and no
    two blanks in a row. *)
Definition tidy (s : string) : bool := tidy_from true s.

(** The text holds nothing but white space. *)
Fixpoint blank_text (s : string) : bool :=
  match s with
  | EmptyString => true
  | String c s' => is_space c && blank_text s'
  end.

End View.

(** ** The wire contract of the client *)

Module Contract.
Import JS.

Section Wire.
Context `{Host}.

(** The call the contract asks of an operation against [base]: method, path
    and body, always with the JSON content type. *)
Definition wire (base : string) (op : Api.operation) : Api.fetch_call :=
  let call m path b :=
    {| Api.url := base ++ path; Api.method := m; Api.body := b;
       Api.headers := [("Content-Type", "application/json")] |} in
  match op with
  | Api.OpList => call "GET" "/notes" None
  | Api.OpCreate note => call "POST" "/notes" (Some (jsonStringify note))
  | Api.OpUpdate id note =>
      call "PUT" ("/notes/" ++ encodeURIComponent (String_ id)) (Some (jsonStringify note))
  | Api.OpDelete id => call "DELETE" ("/notes/" ++ encodeURIComponent (String_ id)) None
  end.

End Wire.

(** The error of an operation that refuses its arguments: the id is looked
    at before the payload. *)
Definition refusal (op : Api.operation) : jserror :=
  match op with
  | Api.OpUpdate id _ => if truthy id then Api.invalid_payload else Error "Missing note id."
  | Api.OpDelete _ => Error "Missing note id."
  | _ => Api.invalid_payload
  end.

(** The text ends with a slash. *)
Fixpoint ends_with_slash (s : string) : bool :=
  match s with
  | EmptyString => false
  | String c EmptyString => Api.is_slash c
  | String _ s' => ends_with_slash s'
  end.

End Contract.

(** ** Runs of the page *)

Module Runs.
Import JS Page.

Section Runs.
Context `{Host}.

(** The state after a sequence of events. *)
Definition after (s : state) (evs : list event) : state :=
  fold_left (fun st ev => next (step st ev)) evs s.

End Runs.

(** The list a response carries: the array itself, or the array under the
    [notes] key of an envelope. *)
Definition carries (res : jsval) (items : list jsval) : Prop :=
  (exists r, res = JArr r items) \/
  (exists r r' fs, res = JObj r fs /\ lookup "notes" fs = Some (JArr r' items)).

Section Times.
Context `{Host}.

(** The note's sort time is [k]. *)
Definition timed (k : Z) (n : obj) : bool :=
  match sortTime n with Some t => t =? k | None => false end.

End Times.

(** A canonical note: the six keys, in their order. *)
Definition canonical (n : obj) : Prop := map fst n = canonical_keys.

End Runs.

(** ** Shapes of text *)

Module Text.
Import JS.

(** The first character is white space. *)
Definition starts_with_space (s : string) : bool :=
  match s with
  | EmptyString => false
  | String c _ => is_space c
  end.

(** The last character is white space. *)
Fixpoint ends_with_space (s : string) : bool :=
  match s with
  | EmptyString => false
  | String c EmptyString => is_space c
  | String _ s' => ends_with_space s'
  end.

(** Every character of the text is an ASCII one. *)
Fixpoint ascii_only (s : string) : bool :=
  match s with
  | EmptyString => true
  | String c s' => Nat.ltb (nat_of_ascii c) 128 && ascii_only s'
  end.

(** The note's title and content are strings of ASCII characters. *)
Definition plain_note (n : obj) : Prop :=
  (exists t, field "title" n = JStr t /\ ascii_only t = true) /\
  (exists c, field "content" n = JStr c /\ ascii_only c = true).

(** A value that is a string, or null, or undefined. *)
Definition string_or_absent (v : jsval) : bool :=
  match v with
  | JStr _ | JUndefined | JNull => true
  | _ => false
  end.

(** A record whose title and content, where it has them, are strings. *)
Definition texted (v : jsval) : bool :=
  match prop v "title", prop v "content" with
  | Ok t, Ok c => string_or_absent t && string_or_absent c
  | _, _ => false
  end.

End Text.

(** ** The debounced value ([hooks/useDebouncedValue.js]) *)

Module Debounce.

(** One use of the hook: the value of the last render, the debounced value
    it returned, and the timer its effect left behind: the value the
    callback will set and the time, in milliseconds, from which the host may
    run it. *)
Record hook : Type := {
  value : string;
  debounced : string;
  timer : option (string * nat)
}.

Inductive tick : Type :=
| Render (v : string)     (* the component renders with this value *)
| Timeout.                (* the host runs the timers that are due *)

Section Hook.
Variable delayMs : nat.

(** The first render, at time [now]: [useState(value)], then the effect. *)
Definition first_render (now : nat) (v : string) : hook :=
  {| value := v; debounced := v; timer := Some (v, (now + delayMs)%nat) |}.

(** A later render, at time [now].  The effect depends on the value (the
    delay does not change): with a new value its cleanup clears the timer
    and the effect sets another; with the same value neither runs. *)
Definition render (now : nat) (v : string) (h : hook) : hook :=
  if (v =? value h)%string then h
  else {| value := v; debounced := debounced h; timer := Some (v, (now + delayMs)%nat) |}.

(** The host at time [now]: a timer that is due runs its callback,
    [setDebounced(value)], once. *)
Definition timeout (now : nat) (h : hook) : hook :=
  match timer h with
  | Some (v, due) =>
      if Nat.leb due now then {| value := value h; debounced := v; timer := None |} else h
  | None => h
  end.

Definition react (h : hook) (e : nat * tick) : hook :=
  match snd e with
  | Render v => render (fst e) v h
  | Timeout => timeout (fst e) h
  end.

(** The hook after a trace of timed events. *)
Definition play (h : hook) (trace : list (nat * tick)) : hook := fold_left react trace h.

(** A burst: every event comes before the timer is due, that is, less than
    [delayMs] after the render that changed the value last ([due] is when
    the timer of the value [v] is due). *)
Fixpoint rapid (due : nat) (v : string) (trace : list (nat * tick)) : Prop :=
  match trace with
  | [] => True
  | e :: rest =>
      (fst e < due)%nat /\
      match snd e with
      | Render w => rapid (if (w =? v)%string then due else (fst e + delayMs)%nat) w rest
      | Timeout => rapid due v rest
      end
  end.

(** The value of the last render of a trace that starts with the value [v]. *)
Fixpoint last_value (v : string) (trace : list (nat * tick)) : string :=
  match trace with
  | [] => v
  | e :: rest => last_value (match snd e with Render w => w | Timeout => v end) rest
  end.

End Hook.

End Debounce.


(** ** A host and data to evaluate the model on *)

Module Sample.
Import JS Page.

(** A host whose clock shows two instants, whose [Date.parse] reads no text
    (the sample notes carry numeric times), with a fixed JSON text and no
    character to escape in a URL. *)
Definition host : Host :=
  {| clock := fun n => if Nat.eqb n 0 then "2024-05-01T10:00:00.000Z" else "2024-05-01T10:00:00.001Z";
     dateParse := fun _ => None;
     jsonStringify := fun _ => "{}";
     encodeURIComponent := fun s => s |}.

(** A canonical note with numeric timestamps. *)
Definition note (id title content : string) (updated : Z) : obj :=
  [("id", JStr id); ("title", JStr title); ("content", JStr content);
   ("updatedAt", JNum updated); ("createdAt", JNum updated); ("raw", JNull)].

Definition A : obj := note "a" "Alpha" "first" 200.
Definition B : obj := note "b" "Beta" "second" 100.

(** The page with [A] and [B] loaded and [A] open, its draft untouched. *)
Definition opened : state :=
  {| notes := [A; B]; selectedId := JStr "a"; search := ""; debouncedSearch := "";
     draftTitle := JStr "Alpha"; draftContent := JStr "first";
     isLoading := false; isSaving := false; isDeleting := false;
     toast := None; cancelled := false |}.

(** The page with nothing selected and a title of three blanks typed. *)
Definition blank : state :=
  {| notes := [A; B]; selectedId := JNull; search := ""; debouncedSearch := "";
     draftTitle := JStr "   "; draftContent := JStr "";
     isLoading := false; isSaving := false; isDeleting := false;
     toast := None; cancelled := false |}.

(** [A] open with its title edited. *)
Definition edited : state :=
  {| notes := [A; B]; selectedId := JStr "a"; search := ""; debouncedSearch := "";
     draftTitle := JStr "Alpha 2"; draftContent := JStr "first";
     isLoading := false; isSaving := false; isDeleting := false;
     toast := None; cancelled := false |}.

(** The server's record of [A] after that edit: no creation time. *)
Definition updatedA : jsval :=
  JObj 7 [("id", JStr "a"); ("title", JStr "Alpha 2"); ("content", JStr "first");
          ("updatedAt", JNum 300)].

(** The entry of [A] once the update is merged. *)
Definition mergedA : obj :=
  [("id", JStr "a"); ("title", JStr "Alpha 2"); ("content", JStr "first");
   ("updatedAt", JNum 300); ("createdAt", JStr "2024-05-01T10:00:00.000Z"); ("raw", updatedA)].

(** A record in a foreign shape. *)
Definition foreign : list (string * jsval) :=
  [("_id", JStr "x1"); ("title", JStr "T"); ("updated_at", JStr "2024-01-01")].

(** The record the server answers a creation with. *)
Definition groceries : jsval :=
  JObj 9 [("id", JStr "n1"); ("title", JStr "Groceries"); ("content", JStr "milk");
          ("updatedAt", JNum 400); ("createdAt", JNum 400)].

Definition no_env : Api.env :=
  {| Api.REACT_APP_API_BASE := None; Api.REACT_APP_BACKEND_URL := None |}.

Definition some_env : Api.env :=
  {| Api.REACT_APP_API_BASE := Some "http://api/"; Api.REACT_APP_BACKEND_URL := None |}.

Definition no_content : Api.response :=
  {| Api.status := 204; Api.statusText := "No Content"; Api.content_type := None;
     Api.json := Throw (TypeError "Unexpected end of JSON input"); Api.text := Ok "" |}.

Definition not_found : Api.response :=
  {| Api.status := 404; Api.statusText := "Not Found"; Api.content_type := Some "text/plain";
     Api.json := Throw (TypeError "Unexpected token"); Api.text := Ok "no such note" |}.

End Sample.

(** ** Further data to evaluate the model on *)

Module Cases.
Import JS Page.

(** A content with blanks around it, a run of blanks and a line break. *)
Definition messy : string :=
  "  Buy   milk" ++ String (ascii_of_nat 10) " and eggs  ".

(** Both variables set, the preferred one with slashes at its end. *)
Definition both_env : Api.env :=
  {| Api.REACT_APP_API_BASE := Some "http://api//";
     Api.REACT_APP_BACKEND_URL := Some "http://other" |}.

(** A payload as the page builds it. *)
Definition payload : jsval := JObj 0 [("title", JStr "T"); ("content", JStr "C")].

(** A payload whose content is a number. *)
Definition bad_payload : jsval := JObj 0 [("title", JStr "T"); ("content", JNum 3)].

(** A 200 whose content type mentions JSON with a charset. *)
Definition found : Api.response :=
  {| Api.status := 200; Api.statusText := "OK";
     Api.content_type := Some "application/json; charset=utf-8";
     Api.json := Ok (JArr 1 []); Api.text := Ok "[]" |}.

(** Two records as a server may send them, and the same under [notes]. *)
Definition records : list jsval :=
  [JObj 2 [("_id", JStr "x1"); ("title", JStr "One"); ("content", JStr "first");
           ("updatedAt", JNum 10); ("createdAt", JNum 10)];
   JObj 3 [("uuid", JStr "x2"); ("title", JStr "Two");
           ("updated_at", JNum 20); ("created_at", JNum 20)]].

Definition envelope : jsval := JObj 1 [("notes", JArr 4 records)].

(** The page with a title typed with blanks around it and a content with
    blanks on both sides, nothing selected. *)
Definition typed : state :=
  {| notes := [Sample.A; Sample.B]; selectedId := JNull; search := ""; debouncedSearch := "";
     draftTitle := JStr "  Plan  "; draftContent := JStr "  indented  ";
     isLoading := false; isSaving := false; isDeleting := false;
     toast := None; cancelled := false |}.

(** Three notes, the first and the last of the same time. *)
Definition C : obj := Sample.note "c" "Gamma" "third" 200.

(** A note whose timestamps are no dates. *)
Definition undated : obj :=
  [("id", JStr "u"); ("title", JStr "Undated"); ("content", JStr "none");
   ("updatedAt", JStr "garbage"); ("createdAt", JStr "garbage"); ("raw", JNull)].

(** A note whose id is the number 0, and the page with it open and its
    title edited. *)
Definition Z0 : obj :=
  [("id", JNum 0); ("title", JStr "Zero"); ("content", JStr "z");
   ("updatedAt", JNum 300); ("createdAt", JNum 300); ("raw", JNull)].

Definition unkeyed : state :=
  {| notes := [Z0; Sample.B]; selectedId := JNum 0; search := ""; debouncedSearch := "";
     draftTitle := JStr "Zero 2"; draftContent := JStr "z";
     isLoading := false; isSaving := false; isDeleting := false;
     toast := None; cancelled := false |}.

(** The record a server answers the creation of that edit with. *)
Definition copy : jsval :=
  JObj 11 [("id", JStr "n2"); ("title", JStr "Zero 2"); ("content", JStr "z");
           ("updatedAt", JNum 500); ("createdAt", JNum 500)].

(** A 500 that declares JSON and carries a page of HTML. *)
Definition syntax_error : jserror :=
  {| ename := "SyntaxError"; emessage := "Unexpected token < in JSON at position 0" |}.

Definition broken : Api.response :=
  {| Api.status := 500; Api.statusText := "Internal Server Error";
     Api.content_type := Some "application/json";
     Api.json := Throw syntax_error; Api.text := Ok "<html>down</html>" |}.

(** A record whose content is a number. *)
Definition numbered : jsval :=
  JObj 5 [("id", JStr "x3"); ("title", JStr "Three"); ("content", JNum 3)].

End Cases.

(** * Properties *)

Import JS Page.

Section NormalizationFacts.
Context `{Host}.

Lemma prop_obj (r : nat) (fs : list (string * jsval)) (k : string) :
  prop (JObj r fs) k = Ok (match lookup k fs with Some x => x | None => JUndefined end).
Proof. reflexivity. Qed.

Lemma orR_ok (v : jsval) (b : result jsval) :
  orR (Ok v) b = if nullish v then b else Ok v.
Proof. reflexivity. Qed.

Lemma chain_first_present (r : nat) (fs : list (string * jsval)) (ks : list string) (k : string) :
  exists v, chain (JObj r fs) k ks = Ok v /\
            match first_present (k :: ks) fs with
            | Some x => v = x
            | None => nullish v = true
            end.
Proof.
  revert k; induction ks as [|k' ks IH]; intros k; cbn [chain fold_right first_present].
  - rewrite prop_obj. eexists; split; [reflexivity|].
    destruct (lookup k fs) as [v|]; [destruct (nullish v) eqn:E|]; auto.
  - rewrite prop_obj, orR_ok.
    destruct (IH k') as (v & Hv & Hspec). fold (chain (JObj r fs) k' ks). rewrite Hv.
    cbn [first_present] in Hspec.
    destruct (lookup k fs) as [x|]; cbn.
    + destruct (nullish x); eauto.
    + eauto.
Qed.


(** C7. Normalizing a server record succeeds; the canonical [id] is the first
    present of [id], [_id], [noteId], [uuid] (a null or undefined when none
    is), [updatedAt] the first present of [updatedAt], [updated_at],
    [modifiedAt], [modified_at], [createdAt] the first present of
    [createdAt], [created_at]; a timestamp that is missing is the clock's
    reading at that moment; [raw] is the record.  In particular a record with
    [_id] and no [id] gets the [_id] value, and one with [updated_at] and no
    [updatedAt] gets the [updated_at] value. *)
Theorem normalizeNote_canonical (r : nat) (fs : list (string * jsval)) (t : nat) :
  exists n t',
    normalizeNote t (JObj r fs) = Ok (n, t') /\
    match first_present id_keys fs with
    | Some v => field "id" n = v
    | None => nullish (field "id" n) = true
    end /\
    (exists tu,
       match first_present updated_keys fs with
       | Some v => field "updatedAt" n = v /\ tu = t
       | None => field "updatedAt" n = JStr (clock t) /\ tu = S t
       end /\
       match first_present created_keys fs with
       | Some v => field "createdAt" n = v /\ t' = tu
       | None => field "createdAt" n = JStr (clock tu) /\ t' = S tu
       end) /\
    field "raw" n = JObj r fs /\
    (forall v, lookup "id" fs = None -> lookup "_id" fs = Some v -> nullish v = false ->
               field "id" n = v) /\
    (forall v, lookup "updatedAt" fs = None -> lookup "updated_at" fs = Some v ->
               nullish v = false -> field "updatedAt" n = v).
Proof.
  unfold normalizeNote.
  change (orR (prop (JObj r fs) "id") _) with (chain (JObj r fs) "id" ["_id"; "noteId"; "uuid"]).
  change (orR (prop (JObj r fs) "updatedAt") _)
    with (chain (JObj r fs) "updatedAt" ["updated_at"; "modifiedAt"; "modified_at"]).
  change (orR (prop (JObj r fs) "createdAt") _) with (chain (JObj r fs) "createdAt" ["created_at"]).
  destruct (chain_first_present r fs ["_id"; "noteId"; "uuid"] "id") as (i & -> & Hi).
  destruct (chain_first_present r fs ["updated_at"; "modifiedAt"; "modified_at"] "updatedAt")
    as (u & -> & Hu).
  destruct (chain_first_present r fs ["created_at"] "createdAt") as (c & -> & Hc).
  rewrite !prop_obj, !orR_ok. cbn [rbind].
  fold id_keys in Hi. fold updated_keys in Hu. fold created_keys in Hc.
  assert (Hid : forall v, lookup "id" fs = None -> lookup "_id" fs = Some v ->
                          nullish v = false -> i = v).
  { intros v E1 E2 E3. unfold id_keys in Hi. cbn [first_present] in Hi.
    rewrite E1, E2, E3 in Hi. exact Hi. }
  assert (Hup : forall v, lookup "updatedAt" fs = None -> lookup "updated_at" fs = Some v ->
                          nullish v = false -> u = v).
  { intros v E1 E2 E3. unfold updated_keys in Hu. cbn [first_present] in Hu.
    rewrite E1, E2, E3 in Hu. exact Hu. }
  assert (Hnn : forall l x, first_present l fs = Some x -> nullish x = false).
  { induction l as [|k l IH]; cbn; intros x; [discriminate|].
    destruct (lookup k fs) as [y|]; [destruct (nullish y) eqn:E|]; auto.
    intros [= <-]; exact E. }
  destruct (nullish (match lookup "title" fs with Some x => x | None => JUndefined end));
  destruct (nullish (match lookup "content" fs with Some x => x | None => JUndefined end));
  cbn [rbind]; unfold or_now, nowIso;
  (destruct (first_present updated_keys fs) as [xu|] eqn:Fu;
   [ subst u; rewrite (Hnn _ _ Fu) | rewrite Hu ]);
  (destruct (first_present created_keys fs) as [xc|] eqn:Fc;
   [ subst c; rewrite (Hnn _ _ Fc) | rewrite Hc ]);
  do 2 eexists; (split; [reflexivity|]);
  (split; [destruct (first_present id_keys fs); exact Hi|]);
  (split; [eexists; split; split; reflexivity|]);
  (split; [reflexivity|]);
  split; intros v E1 E2 E3; cbn; auto;
  specialize (Hup _ E1 E2 E3); subst v; congruence.
Qed.

End NormalizationFacts.

Section ControllerFacts.
Context `{Host}.

Lemma strict_eq_refl (v : jsval) : strict_eq v v = true.
Proof.
  destruct v; cbn; auto using Z.eqb_refl, Nat.eqb_refl, String.eqb_refl.
  destruct b; reflexivity.
Qed.

Lemma commit_same_selection (a b : state) :
  selectedId a = selectedId b -> commit a b = b.
Proof. intros E. unfold commit. rewrite E, strict_eq_refl. reflexivity. Qed.

(** Unfolds an event down to the setters it runs. *)
Ltac unfold_step :=
  unfold step, run, handler, load_resume, handleSave_resume, handleDelete_resume,
    handleSave, handleDelete, handleNew, handleReset,
    finally, try_catch, bind, lift, gets, ret,
    setError, setSuccess, setToast, setNotes, setSelectedId, setIsLoading,
    setIsSaving, setIsDeleting, setDraftTitle, setDraftContent, cancel, modify.

Lemma load_resume_when_cancelled (s : state) (t : nat) (r : result jsval) :
  cancelled s = true ->
  step s (Settled PList t r) = {| next := s; issued := None; escaped := None |}.
Proof.
  intros Hc. destruct s as [ns sid q dq dt dc l sv dl ts c]. cbn in Hc. subst c.
  unfold_step.
  destruct r as [res|err]; cbn.
  - destruct (arr_of res) as [arr|err]; cbn.
    + destruct (map_normalize t arr) as [nz|err]; cbn;
        rewrite commit_same_selection by reflexivity; reflexivity.
    + rewrite commit_same_selection by reflexivity; reflexivity.
  - rewrite commit_same_selection by reflexivity; reflexivity.
Qed.

(** C5. When the page is torn down before the list request settles, the
    settling, with a response or with an error, changes nothing: the state
    stays the one the teardown left, which holds the collection, selection
    and toast of before; nothing is requested and no exception escapes.
    Torn down right after mounting, that is an empty collection, no
    selection and no toast. *)
Theorem load_cancelled_is_noop (s : state) (t : nat) (r : result jsval) :
  let torn := next (step s Unmount) in
  step torn (Settled PList t r) = {| next := torn; issued := None; escaped := None |} /\
  notes torn = notes s /\ selectedId torn = selectedId s /\ toast torn = toast s /\
  (s = next mount -> notes torn = [] /\ selectedId torn = JNull /\ toast torn = None).
Proof.
  assert (E : next (step s Unmount) =
              mkState (notes s) (selectedId s) (search s) (debouncedSearch s) (draftTitle s)
                (draftContent s) (isLoading s) (isSaving s) (isDeleting s) (toast s) true).
  { unfold_step. cbn. apply commit_same_selection. reflexivity. }
  cbn zeta. rewrite E. split; [apply load_resume_when_cancelled; reflexivity|].
  cbn. repeat split; subst; reflexivity.
Qed.

Lemma arr_of_unrecognized (res : jsval) :
  unrecognized res = true -> arr_of res = Ok (JArr 0 []).
Proof.
  destruct res; cbn; try discriminate; try reflexivity.
  unfold or_else. intros E. apply negb_true_iff in E. rewrite E. reflexivity.
Qed.

(** C10. On a mounted page, a list response of an unrecognized shape (not
    an array, and no truthy [notes] field) completes the load as a success
    with no notes: the collection is empty, the selection is what it was
    (none when there was none), the toast is not touched, loading is over
    and no exception escapes.  From mounting: no selection and no toast.
    Null, a string, a number and an object without [notes] are such
    responses. *)
Theorem load_unrecognized_shape (s : state) (t : nat) (res : jsval) :
  cancelled s = false ->
  unrecognized res = true ->
  let o := step s (Settled PList t (Ok res)) in
  notes (next o) = [] /\
  selectedId (next o) = coalesce (selectedId s) JNull /\
  toast (next o) = toast s /\
  isLoading (next o) = false /\
  escaped o = None /\ issued o = None /\
  (s = next mount -> selectedId (next o) = JNull /\ toast (next o) = None) /\
  (forall r n z, unrecognized JNull = true /\ unrecognized (JStr z) = true /\
                 unrecognized (JNum n) = true /\ unrecognized (JObj r []) = true).
Proof.
  intros Hc Hres. destruct s as [ns sid q dq dt dc l sv dl ts c]. cbn in Hc. subst c.
  cbn zeta. unfold_step. cbn. rewrite (arr_of_unrecognized _ Hres). cbn.
  unfold commit. cbn.
  destruct (strict_eq sid (coalesce sid JNull)); cbn.
  - repeat split; try reflexivity;
      match goal with E : @eq state _ _ |- _ => inversion E; subst; reflexivity end.
  - unfold syncDraft, selected. unfold_step. cbn.
    repeat split; try reflexivity;
      match goal with E : @eq state _ _ |- _ => inversion E; subst; reflexivity end.
Qed.



(** *** Object spread *)

Lemma lookup_put (k k' : string) (v : jsval) (o : obj) :
  lookup k (put k' v o) = if (k =? k')%string then Some v else lookup k o.
Proof.
  induction o as [|[k0 v0] o IH]; cbn.
  - reflexivity.
  - destruct (k' =? k0)%string eqn:E; cbn.
    + apply String.eqb_eq in E. subst k0.
      destruct (k =? k')%string; reflexivity.
    + rewrite IH. destruct (k =? k0)%string eqn:E0; [|reflexivity].
      apply String.eqb_eq in E0. subst k0.
      destruct (k =? k')%string eqn:E1; [|reflexivity].
      apply String.eqb_eq in E1. subst k'. rewrite String.eqb_refl in E. discriminate.
Qed.

Lemma lookup_assign (k : string) (src target : obj) :
  lookup k (assign target src) =
  match lookup k (rev src) with Some v => Some v | None => lookup k target end.
Proof.
  unfold assign. revert target.
  induction src as [|[k0 v0] src IH]; intros target; cbn [fold_left rev fst snd].
  - reflexivity.
  - rewrite IH, lookup_put.
    assert (L : forall a b, lookup k (a ++ b) =
                            match lookup k a with Some v => Some v | None => lookup k b end).
    { induction a as [|[ka va] a IHa]; intros b; cbn; [reflexivity|].
      destruct (k =? ka)%string; auto. }
    rewrite L. cbn [lookup].
    destruct (lookup k (rev src)); [reflexivity|].
    destruct (k =? k0)%string; reflexivity.
Qed.

Lemma lookup_rev (k : string) (o : obj) :
  unique_keys o -> lookup k (rev o) = lookup k o.
Proof.
  unfold unique_keys.
  assert (L : forall a b, lookup k (a ++ b) =
                          match lookup k a with Some v => Some v | None => lookup k b end).
  { induction a as [|[ka va] a IHa]; intros b; cbn; [reflexivity|].
    destruct (k =? ka)%string; auto. }
  assert (N : forall a, ~ In k (map fst a) -> lookup k a = None).
  { induction a as [|[ka va] a IHa]; cbn; intros Hn; [reflexivity|].
    destruct (k =? ka)%string eqn:E.
    - apply String.eqb_eq in E. subst. tauto.
    - apply IHa. tauto. }
  induction o as [|[k0 v0] o IH]; cbn; intros Hd; [reflexivity|].
  inversion Hd as [|? ? Hn Hd']; subst.
  rewrite L, IH by assumption. cbn.
  destruct (k =? k0)%string eqn:E.
  - apply String.eqb_eq in E. subst k0. rewrite (N _ Hn). reflexivity.
  - destruct (lookup k o); reflexivity.
Qed.

(** In [{ ...a, ...b }] every property of [b] wins; the others are [a]'s. *)
Lemma field_spread2 (k : string) (a b : obj) :
  unique_keys a -> unique_keys b ->
  field k (spread2 a b) = match lookup k b with Some v => v | None => field k a end.
Proof.
  intros Ha Hb. unfold field, spread2. rewrite !lookup_assign, !lookup_rev by assumption.
  cbn. destruct (lookup k b); [reflexivity|]. destruct (lookup k a); reflexivity.
Qed.

(** Normalization succeeds on everything but null and undefined, and yields
    an object with the six canonical keys. *)
Lemma normalizeNote_total (t : nat) (v : jsval) :
  nullish v = false ->
  exists n t', normalizeNote t v = Ok (n, t') /\ map fst n = canonical_keys.
Proof.
  intros Hv. unfold normalizeNote.
  assert (P : forall k, exists x, prop v k = Ok x).
  { intros k. destruct v; cbn in *; try discriminate; eauto. }
  assert (C : forall a b, (exists x, a = Ok x) -> (exists y, b = Ok y) -> exists z, orR a b = Ok z).
  { intros a b [x ->] [y ->]. cbn. destruct (nullish x); eauto. }
  destruct (C _ _ (P "id") (C _ _ (P "_id") (C _ _ (P "noteId") (P "uuid")))) as [i ->].
  destruct (C _ _ (P "title") (ex_intro _ (JStr "") eq_refl)) as [ti ->].
  destruct (C _ _ (P "content") (ex_intro _ (JStr "") eq_refl)) as [co ->].
  destruct (C _ _ (P "updatedAt") (C _ _ (P "updated_at") (C _ _ (P "modifiedAt") (P "modified_at"))))
    as [u ->].
  destruct (C _ _ (P "createdAt") (P "created_at")) as [c ->].
  cbn [rbind]. destruct (or_now u t) as [ua t1]. destruct (or_now c t1) as [ca t2].
  do 2 eexists. split; reflexivity.
Qed.

(** *** Saving *)

(** What a save that gets as far as its request has done: the toast is
    cleared, [isSaving] is set, and the request is an update of the selected
    note when [selectedId] is truthy, a creation otherwise. *)
Lemma save_start (s : state) (ev : event) (p : pending) :
  ev = ClickSave \/ ev = SubmitForm ->
  issued (step s ev) = Some p ->
  next (step s ev) =
    mkState (notes s) (selectedId s) (search s) (debouncedSearch s) (draftTitle s)
      (draftContent s) (isLoading s) true (isDeleting s) None (cancelled s) /\
  exists title content,
    p = if truthy (selectedId s) then PUpdate (selectedId s) title content
        else PCreate title content.
Proof.
  intros Hev. destruct s as [ns sid q dq dt dc l sv dl ts c].
  assert (G : forall e, e = SubmitForm \/ e = ClickSave ->
                        step (mkState ns sid q dq dt dc l sv dl ts c) e =
                        step (mkState ns sid q dq dt dc l sv dl ts c) SubmitForm).
  { intros e [-> | ->]; reflexivity. }
  rewrite (G ev) by tauto. clear G Hev.
  unfold_step. cbn.
  destruct (call_str "trim" trim (or_else dt (JStr ""))) as [title|err]; cbn; [|discriminate].
  destruct (call_str "trimEnd" trimEnd (or_else dc (JStr ""))) as [content|err]; cbn;
    [|discriminate].
  destruct (title =? "")%string; cbn; [discriminate|].
  destruct (truthy sid); cbn; rewrite commit_same_selection by reflexivity; cbn;
    intros [= <-]; (split; [reflexivity|]); eauto.
Qed.

(** The settling of an update to a record that normalizes to [nz]. *)
Lemma update_settles (s : state) (sid : jsval) (title content : string) (t t' : nat)
      (updated : jsval) (nz : obj) :
  normalizeNote t updated = Ok (nz, t') ->
  step s (Settled (PUpdate sid title content) t (Ok updated)) =
  {| next := mkState
               (map (fun n => if strict_eq (field "id" n) sid then spread2 n nz else n) (notes s))
               (selectedId s) (search s) (debouncedSearch s) (draftTitle s) (draftContent s)
               (isLoading s) false (isDeleting s) (success_toast "Note saved.") (cancelled s);
     issued := None; escaped := None |}.
Proof.
  intros Hn. destruct s as [ns sel q dq dt dc l sv dl ts c].
  unfold_step. cbn. rewrite Hn. cbn.
  rewrite commit_same_selection by reflexivity. reflexivity.
Qed.

(** The merge, when the selected id is truthy and the update is answered
    with a record: every entry of the collection whose id is the selected
    id becomes the spread of the entry and the normalized record, where
    every property of the normalized record wins and any other property is
    the entry's; the other entries stay, each at its place; the selection
    and the draft are unchanged; the toast is the success "Note saved.";
    saving is over. *)
Lemma save_update_merges (s : state) (ev : event) (sid : jsval) (title content : string)
        (t : nat) (updated : jsval) :
  ev = ClickSave \/ ev = SubmitForm ->
  issued (step s ev) = Some (PUpdate sid title content) ->
  nullish updated = false ->
  exists nz t',
    normalizeNote t updated = Ok (nz, t') /\
    sid = selectedId s /\ truthy sid = true /\
    let o := step (next (step s ev)) (Settled (PUpdate sid title content) t (Ok updated)) in
    notes (next o) =
      map (fun n => if strict_eq (field "id" n) sid then spread2 n nz else n) (notes s) /\
    (forall k v n, lookup k nz = Some v -> field k (spread2 n nz) = v) /\
    (forall k n, lookup k nz = None -> unique_keys n -> field k (spread2 n nz) = field k n) /\
    (forall i n, nth_error (notes s) i = Some n -> strict_eq (field "id" n) sid = false ->
                 nth_error (notes (next o)) i = Some n) /\
    (forall i n, nth_error (notes s) i = Some n -> strict_eq (field "id" n) sid = true ->
                 nth_error (notes (next o)) i = Some (spread2 n nz)) /\
    selectedId (next o) = selectedId s /\
    draftTitle (next o) = draftTitle s /\ draftContent (next o) = draftContent s /\
    toast (next o) = success_toast "Note saved." /\
    isSaving (next o) = false /\ escaped o = None.
Proof.
  intros Hev Hp Hu.
  destruct (normalizeNote_total t updated Hu) as (nz & t' & Hn & Hkeys).
  exists nz, t'. split; [exact Hn|].
  destruct (save_start s ev _ Hev Hp) as (Hs & ti & co & Hsel).
  destruct (truthy (selectedId s)) eqn:Ht; [|discriminate].
  injection Hsel as -> _ _. split; [reflexivity|]. split; [exact Ht|].
  cbn zeta. rewrite Hs, (update_settles _ _ _ _ _ _ _ _ Hn). cbn [next notes selectedId
    draftTitle draftContent toast isSaving escaped].
  assert (Hnz : unique_keys nz).
  { unfold unique_keys. rewrite Hkeys. unfold canonical_keys.
    repeat (constructor; [cbn; intuition discriminate|]). constructor. }
  repeat split.
  - intros k v n Hl. unfold field, spread2. rewrite lookup_assign, lookup_rev, Hl by assumption.
    reflexivity.
  - intros k n Hl Hun. rewrite field_spread2, Hl by assumption. reflexivity.
  - intros i n Hi Hne. rewrite nth_error_map, Hi. cbn. rewrite Hne. reflexivity.
  - intros i n Hi He. rewrite nth_error_map, Hi. cbn. rewrite He. reflexivity.
Qed.

(** C8, evaluated on two saves of a selected note that succeed at the
    server and are not merged.  With [A] open and edited, the update is
    sent and answered 204: the client resolves to null, the normalization
    of null throws, and the page shows an error over an unchanged
    collection.  With a note open whose id is the number 0, the header's
    Save button is enabled, the save takes the selection for none and sends
    a creation: the answer is put in front of the collection, the edited
    note stays as it was, and the toast is "Note created.". *)
Theorem selected_save_not_merged :
  (let s := Sample.edited in
   let p := PUpdate (JStr "a") "Alpha 2" "first" in
   let gone : Api.network := fun _ => Ok Sample.no_content in
   let o := step (next (step s ClickSave)) (Settled p 0 (Ok JNull)) in
   selected s = Some Sample.A /\ can_fire s ClickSave = true /\
   issued (step s ClickSave) = Some p /\
   fst (Api.invoke Sample.some_env gone (operation_of p)) = Ok JNull /\
   notes (next o) = [Sample.A; Sample.B] /\
   toast (next o) = error_toast "Cannot read properties of null (reading 'id')" /\
   toast (next o) <> success_toast "Note saved." /\
   isSaving (next o) = false) /\
  (let s := Cases.unkeyed in
   let p := PCreate "Zero 2" "z" in
   let o := step (next (step s ClickSave)) (Settled p 0 (Ok Cases.copy)) in
   selected s = Some Cases.Z0 /\ hasEdits s = true /\ can_fire s ClickSave = true /\
   issued (step s ClickSave) = Some p /\
   List.length (notes (next o)) = 3%nat /\
   nth_error (notes (next o)) 1 = Some Cases.Z0 /\
   selectedId (next o) = JStr "n2" /\
   toast (next o) = success_toast "Note created." /\
   toast (next o) <> success_toast "Note saved.").
Proof.
  split; cbn zeta; repeat split; discriminate.
Qed.

(** *** Deleting *)

(** The render after a batch keeps everything but the draft. *)
Lemma commit_keeps (a b : state) :
  notes (commit a b) = notes b /\ selectedId (commit a b) = selectedId b /\
  toast (commit a b) = toast b /\ isLoading (commit a b) = isLoading b /\
  isSaving (commit a b) = isSaving b /\ isDeleting (commit a b) = isDeleting b.
Proof.
  unfold commit. destruct (strict_eq (selectedId a) (selectedId b)); [repeat split|].
  unfold syncDraft, bind, gets. destruct (selected b); cbn; repeat split.
Qed.

Lemma delete_start (s : state) :
  truthy (selectedId s) = true ->
  step s ClickDelete =
  {| next := mkState (notes s) (selectedId s) (search s) (debouncedSearch s) (draftTitle s)
               (draftContent s) (isLoading s) (isSaving s) true None (cancelled s);
     issued := Some (PDelete (selectedId s) (notes s)); escaped := None |}.
Proof.
  intros Ht. destruct s as [ns sel q dq dt dc l sv dl ts c]. cbn in Ht.
  unfold_step. cbn. rewrite Ht. cbn.
  rewrite commit_same_selection by reflexivity. reflexivity.
Qed.

Lemma delete_settles (s : state) (sid : jsval) (notes0 : list obj) (t : nat) (v : jsval) :
  let o := step s (Settled (PDelete sid notes0) t (Ok v)) in
  notes (next o) = filter (other_than sid) (notes s) /\
  selectedId (next o) = first_id (filter (other_than (selectedId s)) notes0) /\
  toast (next o) = success_toast "Note deleted." /\
  isDeleting (next o) = false /\ escaped o = None /\ issued o = None.
Proof.
  destruct s as [ns sel q dq dt dc l sv dl ts c]. cbn zeta.
  unfold_step. cbn.
  match goal with |- context [commit ?a ?b] => destruct (commit_keeps a b) as (E1 & E2 & E3 & _ & _ & E4) end.
  rewrite E1, E2, E3, E4. repeat split.
Qed.

Lemma filter_other_than_one (sid : jsval) (l1 l2 : list obj) (n : obj) :
  strict_eq (field "id" n) sid = true ->
  Forall (fun x => other_than sid x = true) (l1 ++ l2)%list ->
  filter (other_than sid) (l1 ++ n :: l2)%list = (l1 ++ l2)%list.
Proof.
  intros Hn Hall. apply Forall_app in Hall as [H1 H2].
  rewrite filter_app. cbn. unfold other_than at 2. rewrite Hn. cbn.
  f_equal; apply forallb_filter_id; apply forallb_forall; apply Forall_forall; assumption.
Qed.

(** A delete whose request settles before anything else happens: the
    collection loses the entries with the selected id, which is exactly the
    selected note when no other entry shares its id; the selection becomes
    the id of the first remaining entry of the collection as it was, in its
    own order, and none when nothing remains; the toast is the success
    "Note deleted."; deleting is over. *)
Lemma delete_selects_next (s : state) (t : nat) (v : jsval) :
  truthy (selectedId s) = true ->
  exists p,
    issued (step s ClickDelete) = Some p /\
    let o := step (next (step s ClickDelete)) (Settled p t (Ok v)) in
    let remaining := filter (other_than (selectedId s)) (notes s) in
    notes (next o) = remaining /\
    selectedId (next o) = first_id remaining /\
    (remaining = [] -> selectedId (next o) = JNull) /\
    (forall n rest, remaining = n :: rest -> nullish (field "id" n) = false ->
                    selectedId (next o) = field "id" n /\ selected (next o) = Some n) /\
    (forall l1 n l2, notes s = (l1 ++ n :: l2)%list ->
                     strict_eq (field "id" n) (selectedId s) = true ->
                     Forall (fun x => other_than (selectedId s) x = true) (l1 ++ l2)%list ->
                     notes (next o) = (l1 ++ l2)%list) /\
    toast (next o) = success_toast "Note deleted." /\
    isDeleting (next o) = false /\ escaped o = None.
Proof.
  intros Ht. rewrite (delete_start s Ht). eexists. split; [reflexivity|].
  cbn zeta. cbn [next].
  match goal with |- context [step ?a (Settled (PDelete ?i ?l) t (Ok v))] =>
    destruct (delete_settles a i l t v) as (E1 & E2 & E3 & E4 & E5 & _) end.
  cbn [notes selectedId] in E1, E2.
  split; [exact E1|]. split; [exact E2|]. split; [|split; [|split]].
  - intros E. rewrite E2, E. reflexivity.
  - intros n rest Hr Hid. split.
    + rewrite E2, Hr. cbn. unfold coalesce. rewrite Hid. reflexivity.
    + unfold selected. rewrite E1, E2, Hr. cbn. unfold coalesce. rewrite Hid.
      rewrite strict_eq_refl. reflexivity.
  - intros l1 n l2 Hl Hn Hall. rewrite E1, Hl. apply filter_other_than_one; assumption.
  - repeat split; assumption.
Qed.

(** C3, evaluated with [A] and [B] loaded and [A] open.  The delete of [A]
    is started; while its request is pending the card of [B] is opened (the
    cards stay active); then the request succeeds.  The collection becomes
    [[B]], and the selection becomes the id of [A], the note just deleted:
    the updater of the selection leaves out the note selected at that
    moment, [B], instead of the deleted one, and takes the first of what is
    left of the collection as it was.  No note is selected any more, the
    draft is emptied, and the toast is "Note deleted.". *)
Theorem delete_then_open_selects_deleted :
  let s := Sample.opened in
  let p := PDelete (JStr "a") [Sample.A; Sample.B] in
  let s1 := next (step s ClickDelete) in
  let s2 := next (step s1 (OpenNote 1)) in
  let o := step s2 (Settled p 0 (Ok JNull)) in
  selected s = Some Sample.A /\
  issued (step s ClickDelete) = Some p /\
  visible s1 = [Sample.A; Sample.B] /\ can_fire s1 (OpenNote 1) = true /\
  selectedId s2 = JStr "b" /\ notes s2 = [Sample.A; Sample.B] /\
  notes (next o) = [Sample.B] /\
  selectedId (next o) = JStr "a" /\ selectedId (next o) <> JStr "b" /\
  selected (next o) = None /\
  draftTitle (next o) = JStr "" /\ draftContent (next o) = JStr "" /\
  toast (next o) = success_toast "Note deleted." /\ isDeleting (next o) = false.
Proof.
  cbn zeta. repeat split. discriminate.
Qed.

(** *** New note *)

(** What the new-note handler does in every state: toast cleared, nothing
    selected, nothing requested. *)
Lemma new_note_deselects (s : state) :
  let o := step s ClickNew in
  toast (next o) = None /\ selectedId (next o) = JNull /\
  notes (next o) = notes s /\ issued o = None /\ escaped o = None.
Proof.
  destruct s as [ns sel q dq dt dc l sv dl ts c]. cbn zeta. unfold_step. cbn.
  match goal with |- context [commit ?a ?b] => destruct (commit_keeps a b) as (E1 & E2 & E3 & _) end.
  rewrite E1, E2, E3. repeat split.
Qed.

(** With nothing selected before, the draft is left at "Untitled". *)
Lemma new_note_draft_when_none (s : state) :
  selectedId s = JNull ->
  draftTitle (next (step s ClickNew)) = JStr "Untitled" /\
  draftContent (next (step s ClickNew)) = JStr "".
Proof.
  destruct s as [ns sel q dq dt dc l sv dl ts c]. cbn. intros ->.
  unfold_step. cbn. split; reflexivity.
Qed.

(** With a selection before, the draft-sync effect runs after the handler
    and overwrites the draft with the note whose id is null, or with empty
    strings when, as usual, there is none. *)
Lemma new_note_draft_when_some (s : state) :
  strict_eq (selectedId s) JNull = false ->
  existsb (fun n => strict_eq (field "id" n) JNull) (notes s) = false ->
  draftTitle (next (step s ClickNew)) = JStr "" /\
  draftContent (next (step s ClickNew)) = JStr "".
Proof.
  destruct s as [ns sel q dq dt dc l sv dl ts c]. cbn. intros Hs Hn.
  unfold_step. cbn. unfold commit. cbn. rewrite Hs.
  unfold syncDraft, selected, bind, gets. cbn.
  assert (F : find (fun n => strict_eq (field "id" n) JNull) ns = None).
  { induction ns as [|n ns IH]; cbn in *; [reflexivity|].
    apply orb_false_iff in Hn as [-> Hn]. auto. }
  rewrite F. cbn. split; reflexivity.
Qed.

(** C1, evaluated with the note [A] open: the new-note intent clears the
    toast, deselects and asks nothing of the server, and the draft ends as
    two empty strings: the "Untitled" the handler wrote is overwritten by
    the draft-sync effect of the selection change. *)
Theorem new_note_draft_is_emptied :
  let o := step Sample.opened ClickNew in
  selectedId Sample.opened = JStr "a" /\
  toast (next o) = None /\ selectedId (next o) = JNull /\
  issued o = None /\ escaped o = None /\
  draftTitle (next o) = JStr "" /\ draftContent (next o) = JStr "" /\
  draftTitle (next o) <> JStr "Untitled".
Proof.
  cbn zeta.
  destruct (new_note_deselects Sample.opened) as (E1 & E2 & _ & E4 & E5).
  destruct (new_note_draft_when_some Sample.opened) as (D1 & D2); [reflexivity..|].
  rewrite D1. repeat split; try assumption. discriminate.
Qed.

(** *** The save controls *)

(** Save guard. The header's Save button is disabled while a save is in
    flight, when nothing is selected and the trimmed title is empty, and
    when a note is selected and the draft has no edits. *)
Theorem header_save_guard (s : state) :
  isSaving s = true \/
  (truthy (selectedId s) = false /\ exists dt, draftTitle s = JStr dt /\ trim dt = "") \/
  (truthy (selectedId s) = true /\ hasEdits s = false) ->
  saveDisabled s = Ok true /\ can_fire s ClickSave = false.
Proof.
  intros G. assert (E : saveDisabled s = Ok true).
  { unfold saveDisabled. destruct (isSaving s); [reflexivity|].
    destruct G as [G | [(Hs & dt & Hd & Ht) | (Hs & He)]]; [discriminate| |].
    - rewrite Hs, Hd. cbn. unfold or_else. cbn.
      destruct (dt =? "")%string; cbn; [reflexivity|]. rewrite Ht. reflexivity.
    - rewrite Hs, He. reflexivity. }
  split; [exact E|]. cbn. rewrite E. reflexivity.
Qed.

(** A draft equal to the selected note has no edits. *)
Lemma no_edits_when_identical (s : state) (n : obj) :
  selected s = Some n ->
  draftTitle s = field "title" n -> draftContent s = field "content" n ->
  hasEdits s = false.
Proof.
  intros Hs Ht Hc. unfold hasEdits. rewrite Hs, Ht, Hc, !strict_eq_refl. reflexivity.
Qed.

(** While a save is in flight neither control starts another. *)
Lemma saving_blocks_both (s : state) :
  isSaving s = true -> can_fire s ClickSave = false /\ can_fire s SubmitForm = false.
Proof.
  intros E. cbn. unfold saveDisabled, submitDisabled. rewrite E. split; reflexivity.
Qed.

(** C2, evaluated with the note [A] open and its draft untouched: the
    header's Save button is disabled, yet the editor form submits; the
    submission runs the save, which sets the saving flag and issues the
    update of [A], a call to [fetch] once the base URL is configured.  With
    nothing selected and a title of blanks the header button is disabled as
    well, the form submits, and the save sets the validation toast. *)
Theorem form_submit_bypasses_guard (net : Api.network) :
  let s := Sample.opened in
  let o := step s SubmitForm in
  let e := {| Api.REACT_APP_API_BASE := Some "http://api";
              Api.REACT_APP_BACKEND_URL := None |} in
  (selected s = Some Sample.A /\ draftTitle s = field "title" Sample.A /\
   draftContent s = field "content" Sample.A /\ isSaving s = false) /\
  saveDisabled s = Ok true /\ can_fire s ClickSave = false /\
  can_fire s SubmitForm = true /\
  issued o = Some (PUpdate (JStr "a") "Alpha" "first") /\
  isSaving (next o) = true /\
  List.length (snd (Api.invoke e net (operation_of (PUpdate (JStr "a") "Alpha" "first")))) = 1%nat /\
  (let b := Sample.blank in
   truthy (selectedId b) = false /\ draftTitle b = JStr "   " /\
   can_fire b ClickSave = false /\ can_fire b SubmitForm = true /\
   toast b = None /\ toast (next (step b SubmitForm)) = error_toast "Title is required.").
Proof.
  cbn zeta. repeat split.
  unfold Api.invoke, operation_of, Api.updateNote. cbn [truthy negb String.eqb].
  unfold Api.request. cbn.
  match goal with |- context [net ?c] => destruct (net c) end; reflexivity.
Qed.

End ControllerFacts.

Section ApiFacts.
Context `{Host}.
Variable e : Api.env.
Variable net : Api.network.

Lemma unset_base :
  Api.REACT_APP_API_BASE e = None -> Api.REACT_APP_BACKEND_URL e = None ->
  Api.getApiBase e = "".
Proof. unfold Api.getApiBase. intros -> ->. reflexivity. Qed.

Lemma request_without_base (path : string) (o : Api.options) :
  Api.getApiBase e = "" -> Api.request e net path o = (Throw Api.missing_base, []).
Proof. unfold Api.request. intros ->. reflexivity. Qed.

(** Whatever the arguments, without a base URL an operation fails and
    [fetch] is not called. *)
Lemma invoke_without_base (op : Api.operation) :
  Api.getApiBase e = "" ->
  snd (Api.invoke e net op) = [] /\ exists err, fst (Api.invoke e net op) = Throw err.
Proof.
  intros Hb. destruct op as [|note|id note|id]; cbn;
    unfold Api.listNotes, Api.createNote, Api.updateNote, Api.deleteNote;
    repeat match goal with |- context [if ?c then _ else _] => destruct c end;
    rewrite ?request_without_base by assumption; cbn; eauto.
Qed.

(** With a base URL, a request calls [fetch] once and settles by the
    response. *)
Lemma request_with_response (path : string) (o : Api.options) (resp : Api.response) :
  Api.getApiBase e <> "" ->
  (forall c, net c = Ok resp) ->
  (exists c, snd (Api.request e net path o) = [c]) /\
  fst (Api.request e net path o) =
    if negb (Api.ok resp) then
      rbind (Api.parseJsonOrText resp) (fun payload =>
        Throw (Api.api_error resp (match payload with JStr s => s | _ => jsonStringify payload end)))
    else if Api.status resp =? 204 then Ok JNull
    else Api.parseJsonOrText resp.
Proof.
  intros Hb Hnet. unfold Api.request.
  destruct (Api.getApiBase e =? "")%string eqn:E; [apply String.eqb_eq in E; contradiction|].
  rewrite Hnet. cbn. eauto.
Qed.

(** An accepted operation is the request it builds. *)
Lemma invoke_accepted (op : Api.operation) :
  Api.accepted op = true ->
  exists path o, Api.invoke e net op = Api.request e net path o.
Proof.
  destruct op as [|note|id note|id]; cbn;
    unfold Api.listNotes, Api.createNote, Api.updateNote, Api.deleteNote; intros Ha.
  - eauto.
  - apply negb_true_iff in Ha. rewrite Ha. eauto.
  - apply andb_true_iff in Ha as [Hi Hn]. apply negb_true_iff in Hn. rewrite Hi, Hn. cbn. eauto.
  - rewrite Ha. cbn. eauto.
Qed.

(** C9, for accepted arguments and readable bodies. For each of the four
    operations, called with arguments it accepts:
    with the base URL unset it fails with the configuration error and
    [fetch] is not called; on a response that is not 2xx it fails, after the
    one call, and when the body reads in the declared content type the error
    is the API error with the status code, the status text and the body (the
    JSON value, encoded unless it is a string, when the response declares
    JSON, the raw text otherwise); on a 204 it succeeds with null. *)
Theorem client_error_contract (op : Api.operation) :
  Api.accepted op = true ->
  ((Api.REACT_APP_API_BASE e = None /\ Api.REACT_APP_BACKEND_URL e = None) \/
   Api.getApiBase e = "" ->
   Api.invoke e net op = (Throw Api.missing_base, [])) /\
  (forall resp,
     Api.getApiBase e <> "" -> (forall c, net c = Ok resp) -> Api.ok resp = false ->
     (exists c, snd (Api.invoke e net op) = [c]) /\
     (exists err, fst (Api.invoke e net op) = Throw err) /\
     (forall v, Api.declares_json resp = true -> Api.json resp = Ok v ->
        fst (Api.invoke e net op) =
        Throw (Api.api_error resp (match v with JStr s => s | _ => jsonStringify v end))) /\
     (forall txt, Api.declares_json resp = false -> Api.text resp = Ok txt ->
        fst (Api.invoke e net op) = Throw (Api.api_error resp txt))) /\
  (forall resp,
     Api.getApiBase e <> "" -> (forall c, net c = Ok resp) -> Api.status resp = 204 ->
     Api.invoke e net op = (Ok JNull, snd (Api.invoke e net op)) /\
     exists c, snd (Api.invoke e net op) = [c]).
Proof.
  intros Ha. destruct (invoke_accepted op Ha) as (path & o & ->).
  split; [|split].
  - intros [[E1 E2] | E]; apply request_without_base; auto using unset_base.
  - intros resp Hb Hnet Hok.
    destruct (request_with_response path o resp Hb Hnet) as [Hc Hr].
    rewrite Hr, Hok. cbn [negb].
    split; [exact Hc|]. split; [|split].
    + destruct (Api.parseJsonOrText resp); cbn; eauto.
    + intros v Hj Hv. unfold Api.parseJsonOrText. fold (Api.declares_json resp).
      rewrite Hj, Hv. reflexivity.
    + intros txt Hj Ht. unfold Api.parseJsonOrText. fold (Api.declares_json resp).
      rewrite Hj, Ht. reflexivity.
  - intros resp Hb Hnet Hs.
    destruct (request_with_response path o resp Hb Hnet) as [Hc Hr].
    split; [|exact Hc].
    destruct (Api.request e net path o) as [r calls]. cbn in *. subst r.
    unfold Api.ok. rewrite Hs. reflexivity.
Qed.

End ApiFacts.

(** ** The visible list *)

Section SortFacts.
Context {A : Type} (cmp : A -> A -> option Z).

Lemma sort_insert_perm (x : A) (l : list A) : Permutation (x :: l) (sort_insert cmp x l).
Proof.
  induction l as [|y l IH]; cbn; [reflexivity|].
  destruct (goes_first cmp x y); [reflexivity|].
  rewrite perm_swap. constructor. exact IH.
Qed.

Lemma sort_perm (l : list A) : Permutation l (sort cmp l).
Proof.
  induction l as [|x l IH]; cbn; [constructor|].
  rewrite <- sort_insert_perm. constructor. exact IH.
Qed.

(** When of two elements one always may go first, insertion keeps every
    neighbour in order. *)
Hypothesis cmp_total : forall a b, goes_first cmp a b = false -> goes_first cmp b a = true.

Lemma sort_insert_sorted (x : A) (l : list A) :
  Sorted (fun a b => goes_first cmp a b = true) l ->
  Sorted (fun a b => goes_first cmp a b = true) (sort_insert cmp x l).
Proof.
  induction l as [|y l IH]; cbn; intros Hs.
  - repeat constructor.
  - destruct (goes_first cmp x y) eqn:E.
    + constructor; [exact Hs|]. constructor. exact E.
    + inversion Hs as [|? ? Hs' Hd]; subst. constructor; [apply IH; exact Hs'|].
      destruct l as [|z l]; cbn.
      * constructor. apply cmp_total. exact E.
      * destruct (goes_first cmp x z); constructor.
        -- apply cmp_total. exact E.
        -- inversion Hd; assumption.
Qed.

Lemma sort_sorted (l : list A) : Sorted (fun a b => goes_first cmp a b = true) (sort cmp l).
Proof.
  induction l as [|x l IH]; cbn; [constructor|]. apply sort_insert_sorted. exact IH.
Qed.

End SortFacts.

Section FilterFacts.
Context {A : Type} (p : A -> result bool).

Lemma filterR_Forall (Q : A -> Prop) (l l' : list A) :
  filterR p l = Ok l' -> Forall Q l -> Forall Q l'.
Proof.
  revert l'; induction l as [|x l IH]; cbn; intros l' E Hq.
  - injection E as <-. constructor.
  - inversion Hq as [|? ? Hx Hl]; subst.
    destruct (p x) as [keep|]; cbn in E; [|discriminate].
    destruct (filterR p l) as [rest|]; cbn in E; [|discriminate].
    injection E as <-. specialize (IH rest eq_refl Hl).
    destruct keep; [constructor|]; assumption.
Qed.

Lemma filterR_StronglySorted (R : A -> A -> Prop) (l l' : list A) :
  filterR p l = Ok l' -> StronglySorted R l -> StronglySorted R l'.
Proof.
  revert l'; induction l as [|x l IH]; cbn; intros l' E Hs.
  - injection E as <-. constructor.
  - inversion Hs as [|? ? Hl Hx]; subst.
    destruct (p x) as [keep|]; cbn in E; [|discriminate].
    destruct (filterR p l) as [rest|] eqn:F; cbn in E; [|discriminate].
    injection E as <-. specialize (IH rest eq_refl Hl).
    destruct keep; [|exact IH]. constructor; [exact IH|].
    exact (filterR_Forall (R x) l rest F Hx).
Qed.

End FilterFacts.

Section ListFacts.
Context `{Host}.

Lemma newestFirst_total (a b : obj) :
  goes_first newestFirst a b = false -> goes_first newestFirst b a = true.
Proof.
  unfold goes_first, newestFirst.
  destruct (sortTime a) as [x|], (sortTime b) as [y|]; try discriminate.
  intros E. apply Z.leb_gt in E. apply Z.leb_le. lia.
Qed.

Lemma goes_first_not_before (a b : obj) :
  goes_first newestFirst a b = true <-> not_before a b.
Proof.
  unfold goes_first, newestFirst, not_before.
  destruct (sortTime a) as [x|], (sortTime b) as [y|]; try tauto.
  rewrite Z.leb_le. lia.
Qed.

Lemma Sorted_impl_on (P : obj -> Prop) (R R' : obj -> obj -> Prop) (l : list obj) :
  (forall a b, P a -> P b -> R a b -> R' a b) ->
  Forall P l -> Sorted R l -> Sorted R' l.
Proof.
  intros Himp Hp Hs. induction Hs as [|a l Hs IH Hd]; constructor.
  - apply IH. inversion Hp; assumption.
  - inversion Hp as [|? ? Pa Pl]; subst.
    destruct Hd as [|b l Hab]; constructor. inversion Pl; subst. auto.
Qed.

Lemma newer_or_same_trans : Relations_1.Transitive newer_or_same.
Proof.
  intros a b c. unfold newer_or_same.
  destruct (sortTime a), (sortTime b), (sortTime c); try tauto. lia.
Qed.

Lemma sort_dated (ns : list obj) :
  Forall dated ns -> StronglySorted newer_or_same (sort newestFirst ns).
Proof.
  intros Hd. apply Sorted_StronglySorted; [exact newer_or_same_trans|].
  apply (Sorted_impl_on dated (fun a b => goes_first newestFirst a b = true)).
  - intros a b Ha Hb Hab. apply goes_first_not_before in Hab.
    unfold dated, not_before, newer_or_same in *.
    destruct (sortTime a), (sortTime b); tauto.
  - apply (Permutation_Forall (sort_perm newestFirst ns)). exact Hd.
  - apply sort_sorted. exact newestFirst_total.
Qed.

(** What [filter] keeps, for a predicate that did not throw. *)
Lemma filterR_is_filter {A : Type} (p : A -> result bool) (l l' : list A) :
  filterR p l = Ok l' ->
  l' = filter (fun x => match p x with Ok b => b | Throw _ => false end) l.
Proof.
  revert l'; induction l as [|x l IH]; cbn; intros l' E.
  - injection E as <-. reflexivity.
  - destruct (p x) as [keep|]; cbn in E; [|discriminate].
    destruct (filterR p l) as [rest|]; cbn in E; [|discriminate].
    injection E as <-. rewrite <- (IH rest eq_refl). destruct keep; reflexivity.
Qed.

(** C6, for dated notes. For a collection in which every note has a valid time:
    the time is that of [updatedAt], of [createdAt] when [updatedAt] is
    falsy, the epoch when both are; the unfiltered visible list is a
    rearrangement of the collection in which that time never increases;
    and for every query the visible list is a filter of that sorted list,
    so it is non-increasing as well. *)
Theorem visible_list_sorted_when_dated (ns : list obj) :
  Forall dated ns ->
  exists base,
    filteredNotes ns "" = Ok base /\
    Permutation ns base /\
    StronglySorted newer_or_same base /\
    (forall query l, filteredNotes ns query = Ok l ->
       (exists keep, l = filter keep base) /\ StronglySorted newer_or_same l) /\
    (forall n, sortTime n =
               getTime (if truthy (field "updatedAt" n) then field "updatedAt" n
                        else if truthy (field "createdAt" n) then field "createdAt" n
                        else JNum 0)) /\
    (forall n, truthy (field "updatedAt" n) = false -> truthy (field "createdAt" n) = false ->
               sortTime n = Some 0).
Proof.
  intros Hd. exists (sort newestFirst ns).
  split; [reflexivity|]. split; [apply sort_perm|]. split; [apply sort_dated; exact Hd|].
  split; [|split].
  - intros query l E. unfold filteredNotes in E.
    destruct (toLowerCase (trim query) =? "")%string.
    + injection E as <-. split; [|apply sort_dated; exact Hd].
      exists (fun _ => true). symmetry. apply forallb_filter_id. apply forallb_forall. reflexivity.
    + split; [eexists; exact (filterR_is_filter _ _ _ E)|].
      eapply filterR_StronglySorted; [exact E|]. apply sort_dated. exact Hd.
  - intros n. unfold sortTime, or_else.
    destruct (truthy (field "updatedAt" n)) eqn:E; [rewrite E; reflexivity|].
    destruct (truthy (field "createdAt" n)); reflexivity.
  - intros n Eu Ec. unfold sortTime, or_else. rewrite Eu, Ec. reflexivity.
Qed.

End ListFacts.

(** ** Further properties of the page and of the client *)

Section FlowFacts.
Context `{Host}.

Ltac unfold_event :=
  unfold step, run, handler, handleSave_resume, handleSave,
    finally, try_catch, bind, lift, gets, ret,
    setError, setSuccess, setToast, setNotes, setSelectedId,
    setIsSaving, setDraftTitle, setDraftContent, modify.

(** The settling of a creation to a record that normalizes to [nz]. *)
Lemma create_settles (s : state) (title content : string) (t t' : nat)
      (created : jsval) (nz : obj) :
  normalizeNote t created = Ok (nz, t') ->
  let o := step s (Settled (PCreate title content) t (Ok created)) in
  notes (next o) = nz :: notes s /\ selectedId (next o) = field "id" nz /\
  toast (next o) = success_toast "Note created." /\ isSaving (next o) = false /\
  isLoading (next o) = isLoading s /\ isDeleting (next o) = isDeleting s /\
  escaped o = None /\ issued o = None.
Proof.
  intros Hn. destruct s as [ns sel q dq dt dc l sv dl ts c]. cbn zeta.
  unfold_event. cbn. rewrite Hn. cbn.
  match goal with |- context [commit ?a ?b] =>
    destruct (commit_keeps a b) as (E1 & E2 & E3 & E4 & E5 & E6) end.
  rewrite E1, E2, E3, E4, E5, E6. repeat split.
Qed.

(** Create flow. A save with nothing selected asks for a creation; when it
    succeeds with a record, the normalized record is put at the front of the
    collection and becomes the selection, the toast is the success "Note
    created." and saving is over. *)
Theorem create_flow (s : state) (ev : event) (title content : string) (t : nat)
        (created : jsval) :
  ev = ClickSave \/ ev = SubmitForm ->
  issued (step s ev) = Some (PCreate title content) ->
  nullish created = false ->
  exists nz t',
    normalizeNote t created = Ok (nz, t') /\
    truthy (selectedId s) = false /\
    let o := step (next (step s ev)) (Settled (PCreate title content) t (Ok created)) in
    notes (next o) = nz :: notes s /\
    selectedId (next o) = field "id" nz /\
    toast (next o) = success_toast "Note created." /\
    isSaving (next o) = false /\ escaped o = None.
Proof.
  intros Hev Hp Hc.
  destruct (normalizeNote_total t created Hc) as (nz & t' & Hn & _).
  exists nz, t'. split; [exact Hn|].
  destruct (save_start s ev _ Hev Hp) as (Hs & ti & co & Hsel).
  destruct (truthy (selectedId s)) eqn:Ht; [discriminate|].
  split; [reflexivity|]. cbn zeta.
  destruct (create_settles (next (step s ev)) title content t t' created nz Hn)
    as (E1 & E2 & E3 & E4 & _ & _ & E5 & _).
  rewrite E1, E2, E3, E4, E5, Hs. repeat split.
Qed.

(** Save validation. A save whose title trims to nothing fails at once: the
    toast is the error "Title is required.", no request is made, and the
    saving flag is left alone. *)
Theorem blank_title_is_rejected (s : state) (ev : event) (dt dc : string) :
  ev = ClickSave \/ ev = SubmitForm ->
  draftTitle s = JStr dt -> draftContent s = JStr dc -> trim dt = "" ->
  issued (step s ev) = None /\
  toast (next (step s ev)) = error_toast "Title is required." /\
  isSaving (next (step s ev)) = isSaving s /\
  notes (next (step s ev)) = notes s /\ selectedId (next (step s ev)) = selectedId s.
Proof.
  intros Hev Ht Hc Htrim.
  destruct s as [ns sel q dq dt' dc' l sv dl ts c]. cbn in Ht, Hc. subst dt' dc'.
  assert (E1 : call_str "trim" trim (or_else (JStr dt) (JStr "")) = Ok "").
  { unfold or_else; cbn. destruct (dt =? "")%string eqn:E; cbn; [reflexivity|].
    rewrite Htrim. reflexivity. }
  assert (E2 : exists c', call_str "trimEnd" trimEnd (or_else (JStr dc) (JStr "")) = Ok c').
  { unfold or_else; cbn. destruct (dc =? "")%string; cbn; eauto. }
  destruct E2 as (c' & E2).
  destruct Hev as [-> | ->]; unfold_event; cbn; rewrite E1, E2; cbn;
    rewrite commit_same_selection by reflexivity; repeat split.
Qed.

(** The filter of string notes is the specification's. *)
Lemma filterR_matches (q : string) (l : list obj) :
  Forall texty l -> filterR (matches q) l = Ok (filter (contains_text q) l).
Proof.
  induction l as [|n l IH]; cbn; intros Hl; [reflexivity|].
  inversion Hl as [|? ? [[t Ht] [c Hc]] Hl']; subst.
  rewrite (IH Hl'). unfold matches, mentions, contains_text, or_else. rewrite Ht, Hc. cbn.
  assert (L : forall x, call_str "toLowerCase" toLowerCase
                          (if negb (x =? "")%string then JStr x else JStr "") =
                        Ok (toLowerCase x)).
  { intros x. destruct (x =? "")%string eqn:E; cbn; [|reflexivity].
    apply String.eqb_eq in E. subst x. reflexivity. }
  rewrite !L. cbn.
  destruct (includes q (toLowerCase t)); cbn; [reflexivity|].
  destruct (includes q (toLowerCase c)); reflexivity.
Qed.

(** Filter. For notes with valid times whose title and content are ASCII
    strings, and an ASCII query: a query that is not blank shows exactly
    the notes of the sorted collection whose title or content contains the
    trimmed query, letter case aside, in the sorted order; a blank query
    shows the whole sorted collection. *)
Theorem filter_is_substring_match (ns : list obj) (query : string) :
  Forall dated ns -> Forall Text.plain_note ns -> Text.ascii_only query = true ->
  let q := toLowerCase (trim query) in
  filteredNotes ns query =
    Ok (if (q =? "")%string then sort newestFirst ns
        else filter (contains_text q) (sort newestFirst ns)).
Proof.
  intros _ Hp _. cbn zeta. unfold filteredNotes.
  destruct (toLowerCase (trim query) =? "")%string; [reflexivity|].
  apply filterR_matches.
  apply (Permutation_Forall (sort_perm newestFirst ns)).
  apply Forall_forall. intros n Hn.
  destruct (proj1 (Forall_forall _ _) Hp n Hn) as [(t & Et & _) (c & Ec & _)].
  split; eauto.
Qed.

End FlowFacts.

Section NetworkFacts.
Context `{Host}.

(** Network failure. When [fetch] rejects, an accepted operation fails,
    after that one call, with a single error that names the base URL and the
    cause. *)
Theorem network_failure_is_wrapped (e : Api.env) (net : Api.network) (op : Api.operation)
        (cause : jserror) :
  Api.accepted op = true ->
  Api.getApiBase e <> "" ->
  (forall c, net c = Throw cause) ->
  fst (Api.invoke e net op) =
    Throw (Error ("Network error contacting backend at " ++ Api.getApiBase e ++ ". "
                  ++ message_of cause)) /\
  exists c, snd (Api.invoke e net op) = [c].
Proof.
  intros Ha Hb Hnet. destruct (invoke_accepted e net op Ha) as (path & o & ->).
  unfold Api.request.
  destruct (Api.getApiBase e =? "")%string eqn:E; [apply String.eqb_eq in E; contradiction|].
  rewrite Hnet. cbn. eauto.
Qed.

End NetworkFacts.

(** ** The note card *)

Section SnippetFacts.
Import View.

Lemma dropStartWhile_head (p : ascii -> bool) (s : string) (c : ascii) (r : string) :
  dropStartWhile p s = String c r -> p c = false.
Proof.
  induction s as [|a s IH]; cbn; [discriminate|].
  destruct (p a) eqn:E; [exact IH|]. intros [= <- _]. exact E.
Qed.

Lemma tidy_collapse_from (b : bool) (s : string) : tidy_from b (collapse_from b s) = true.
Proof.
  revert b; induction s as [|c s IH]; intros b; cbn; [reflexivity|].
  destruct (is_space c) eqn:E.
  - destruct b; [apply IH|]. cbn. apply IH.
  - cbn. rewrite E. apply IH.
Qed.

Lemma tidy_from_weaken (s : string) : tidy_from true s = true -> tidy_from false s = true.
Proof.
  destruct s as [|c s]; cbn; [reflexivity|].
  destruct (is_space c); [|trivial]. rewrite andb_false_r. discriminate.
Qed.

Lemma tidy_substring (n : nat) (b : bool) (s : string) :
  tidy_from b s = true -> tidy_from b (substring 0 n s) = true.
Proof.
  revert b s; induction n as [|n IH]; intros b s.
  - destruct s; reflexivity.
  - destruct s as [|c s]; cbn; [reflexivity|].
    destruct (is_space c).
    + intros E. apply andb_true_iff in E as [E1 E2]. rewrite E1. cbn. apply IH. exact E2.
    + apply IH.
Qed.

Lemma tidy_append (e : string) (b : bool) (s : string) :
  (forall b', tidy_from b' e = true) ->
  tidy_from b s = true -> tidy_from b (s ++ e) = true.
Proof.
  intros He. revert b; induction s as [|c s IH]; intros b; cbn; [intros _; apply He|].
  destruct (is_space c).
  - intros E. apply andb_true_iff in E as [E1 E2]. rewrite E1. cbn. apply IH. exact E2.
  - apply IH.
Qed.

Lemma length_substring_le (n : nat) (s : string) : (String.length (substring 0 n s) <= n)%nat.
Proof.
  revert s; induction n as [|n IH]; intros s; destruct s as [|c s]; cbn; try lia.
  specialize (IH s). lia.
Qed.

Lemma length_append (a b : string) :
  String.length (a ++ b) = (String.length a + String.length b)%nat.
Proof. induction a as [|c a IH]; cbn; [reflexivity|]. rewrite IH. reflexivity. Qed.

Lemma collapse_from_empty (b : bool) (s : string) :
  collapse_from b s = "" -> blank_text s = true.
Proof.
  revert b; induction s as [|c s IH]; intros b; cbn; [reflexivity|].
  destruct (is_space c); [|discriminate].
  destruct b; [apply IH|discriminate].
Qed.

Lemma blank_dropEnd (s : string) : blank_text s = true -> dropEndWhile is_space s = "".
Proof.
  induction s as [|c s IH]; cbn; [reflexivity|].
  intros E. apply andb_true_iff in E as [E1 E2]. rewrite (IH E2), E1. reflexivity.
Qed.

Lemma dropEnd_blank (s : string) : dropEndWhile is_space s = "" -> blank_text s = true.
Proof.
  induction s as [|c s IH]; cbn; [reflexivity|].
  destruct (dropEndWhile is_space s) eqn:E; [|discriminate].
  destruct (is_space c); [|discriminate]. intros _. apply IH. reflexivity.
Qed.

Lemma dropStart_blank (s : string) : dropStartWhile is_space s = "" -> blank_text s = true.
Proof.
  induction s as [|c s IH]; cbn; [reflexivity|].
  destruct (is_space c); [exact IH|discriminate].
Qed.

Lemma dropEndWhile_idem (p : ascii -> bool) (s : string) :
  dropEndWhile p (dropEndWhile p s) = dropEndWhile p s.
Proof.
  induction s as [|c s IH]; cbn; [reflexivity|].
  destruct (dropEndWhile p s) as [|d t] eqn:E.
  - destruct (p c) eqn:Pc; cbn; [reflexivity|]. rewrite Pc. reflexivity.
  - change (dropEndWhile p (String c (String d t)))
      with (match dropEndWhile p (String d t) with
            | EmptyString => if p c then EmptyString else String c EmptyString
            | String a x => String c (String a x)
            end).
    rewrite IH. reflexivity.
Qed.

Lemma trim_blank (s : string) : trim s = "" <-> blank_text s = true.
Proof.
  unfold trim, trimEnd. split.
  - intros E. apply dropEnd_blank. apply dropStart_blank in E.
    rewrite <- dropEndWhile_idem. apply blank_dropEnd. exact E.
  - intros B. rewrite (blank_dropEnd s B). reflexivity.
Qed.

Lemma collapse_trim_empty (t : string) : collapse (trim t) = "" <-> blank_text t = true.
Proof.
  split.
  - intros E. apply trim_blank. apply collapse_from_empty in E.
    destruct (trim t) as [|c r] eqn:T; [reflexivity|].
    unfold trim in T. apply dropStartWhile_head in T. cbn in E. rewrite T in E. discriminate.
  - intros B. apply trim_blank in B. rewrite B. reflexivity.
Qed.

Lemma tidy_collapse_trim (t : string) : tidy (collapse (trim t)) = true.
Proof.
  unfold tidy, collapse. destruct (trim t) as [|c r] eqn:T; [reflexivity|].
  unfold trim in T. apply dropStartWhile_head in T. cbn. rewrite T. cbn. rewrite T.
  apply tidy_collapse_from.
Qed.

(** Snippet. The snippet of an ASCII text never fails and is never empty; it
    has no white space at its start, no line break or tab, and no two blanks
    in a row; it is at most 120 characters of the text, with the ellipsis
    after them when the text was cut.  A text of white space only shows as
    "No content yet."; any other text shows trimmed, with its runs of white
    space collapsed, whole when that is at most 120 characters long and cut
    after 120 otherwise. *)
Theorem snippet_is_tidy (t : string) :
  Text.ascii_only t = true ->
  exists r,
    snippet (JStr t) = Ok r /\
    r <> "" /\ tidy r = true /\
    (exists body, (r = body \/ r = body ++ ellipsis) /\ (String.length body <= 120)%nat) /\
    (blank_text t = true -> r = "No content yet.") /\
    (blank_text t = false ->
     let s := collapse (trim t) in
     r = if Nat.ltb 120 (String.length s) then substring 0 120 s ++ ellipsis else s).
Proof.
  intros _.
  assert (E : snippet (JStr t) =
              Ok (if (collapse (trim t) =? "")%string then "No content yet."
                  else if Nat.ltb 120 (String.length (collapse (trim t)))
                       then substring 0 120 (collapse (trim t)) ++ ellipsis
                       else collapse (trim t))).
  { unfold snippet, or_else. cbn. destruct (t =? "")%string eqn:T; cbn.
    - apply String.eqb_eq in T. subst t. reflexivity.
    - destruct (collapse (trim t) =? "")%string; reflexivity. }
  rewrite E. eexists. split; [reflexivity|].
  destruct (collapse (trim t) =? "")%string eqn:C.
  - apply String.eqb_eq, collapse_trim_empty in C.
    split; [discriminate|]. split; [reflexivity|].
    split; [exists "No content yet."; split; [left; reflexivity|cbn; lia]|].
    split; [reflexivity|]. rewrite C. discriminate.
  - apply String.eqb_neq in C.
    assert (B : blank_text t = false).
    { destruct (blank_text t) eqn:B; [|reflexivity].
      exfalso. apply C. apply collapse_trim_empty. exact B. }
    assert (T := tidy_collapse_trim t).
    destruct (Nat.ltb 120 (String.length (collapse (trim t)))) eqn:L.
    + split; [|split; [|split; [|split]]].
      * destruct (collapse (trim t)) as [|c r]; [congruence|]. cbn. discriminate.
      * unfold tidy. apply tidy_append; [intros []; reflexivity|].
        apply tidy_substring. exact T.
      * eexists. split; [right; reflexivity|]. apply length_substring_le.
      * rewrite B. discriminate.
      * intros _. cbn zeta. rewrite L. reflexivity.
    + apply Nat.ltb_ge in L. split; [exact C|]. split; [exact T|].
      split; [eexists; split; [left; reflexivity|exact L]|].
      split; [rewrite B; discriminate|].
      intros _. cbn zeta. apply Nat.ltb_ge in L. rewrite L. reflexivity.
Qed.

End SnippetFacts.

(** ** The client: base URL, arguments, wire contract *)

Section ClientFacts.
Context `{Host}.
Import Contract.

Lemma dropEnd_no_slash (s : string) : ends_with_slash (dropEndWhile Api.is_slash s) = false.
Proof.
  induction s as [|c s IH]; cbn; [reflexivity|].
  destruct (dropEndWhile Api.is_slash s) as [|d t] eqn:E.
  - destruct (Api.is_slash c) eqn:S; cbn; [reflexivity|exact S].
  - exact IH.
Qed.

Lemma dropEnd_keeps (s : string) :
  ends_with_slash s = false -> dropEndWhile Api.is_slash s = s.
Proof.
  induction s as [|c s IH]; cbn; [reflexivity|].
  destruct s as [|d t].
  - cbn. intros ->. reflexivity.
  - intros E. rewrite (IH E). reflexivity.
Qed.

(** Base URL. The base is the first of REACT_APP_API_BASE and
    REACT_APP_BACKEND_URL that is set and not empty, with the slashes at its
    end removed: it never ends with a slash, a value without one is taken as
    it is, and a value made of slashes only leaves no base at all, so that
    every request fails with the configuration error. *)
Theorem api_base_resolution (e : Api.env) :
  ends_with_slash (Api.getApiBase e) = false /\
  (forall a, Api.REACT_APP_API_BASE e = Some a -> a <> "" ->
             Api.getApiBase e = dropEndWhile Api.is_slash a) /\
  (forall b, (Api.REACT_APP_API_BASE e = None \/ Api.REACT_APP_API_BASE e = Some "") ->
             Api.REACT_APP_BACKEND_URL e = Some b ->
             Api.getApiBase e = dropEndWhile Api.is_slash b) /\
  (forall a, Api.REACT_APP_API_BASE e = Some a -> a <> "" -> ends_with_slash a = false ->
             Api.getApiBase e = a) /\
  (forall a net path o, Api.REACT_APP_API_BASE e = Some a -> a <> "" ->
             dropEndWhile Api.is_slash a = "" ->
             Api.request e net path o = (Throw Api.missing_base, [])).
Proof.
  assert (P : forall a, Api.REACT_APP_API_BASE e = Some a -> a <> "" ->
                        Api.getApiBase e = dropEndWhile Api.is_slash a).
  { intros a Ha Hne. unfold Api.getApiBase, Api.env_or. rewrite Ha.
    apply String.eqb_neq in Hne. rewrite Hne. reflexivity. }
  split; [apply dropEnd_no_slash|]. split; [exact P|]. split; [|split].
  - intros b [Ha | Ha] Hb; unfold Api.getApiBase, Api.env_or; rewrite Ha, Hb; cbn;
      destruct (b =? "")%string eqn:E; try reflexivity;
      apply String.eqb_eq in E; subst b; reflexivity.
  - intros a Ha Hne Hs. rewrite (P a Ha Hne). apply dropEnd_keeps. exact Hs.
  - intros a net path o Ha Hne Hd. unfold Api.request. rewrite (P a Ha Hne), Hd. reflexivity.
Qed.

(** Refused arguments. An operation that refuses its arguments (an update or
    delete without an id, a create or update whose payload is not an object
    with a string title and a string content) fails with its own error,
    whatever the configuration, and never calls [fetch]. *)
Theorem refused_arguments_stay_local (e : Api.env) (net : Api.network) (op : Api.operation) :
  Api.accepted op = false ->
  Api.invoke e net op = (Throw (refusal op), []).
Proof.
  destruct op as [|note|id note|id]; cbn;
    unfold Api.createNote, Api.updateNote, Api.deleteNote; intros Ha.
  - discriminate.
  - apply negb_false_iff in Ha. rewrite Ha. reflexivity.
  - destruct (truthy id); cbn in *; [|reflexivity].
    apply negb_false_iff in Ha. rewrite Ha. reflexivity.
  - rewrite Ha. reflexivity.
Qed.

(** Wire contract. With a base URL, an operation that accepts its arguments
    calls [fetch] exactly once, whatever the network answers: GET base/notes
    for the list, POST base/notes with the encoded note for a create, PUT or
    DELETE base/notes/id, the id escaped, for an update (with the encoded
    note) or a delete; the path is joined to the base without a slash
    added, and the content type is JSON. *)
Theorem wire_contract (e : Api.env) (net : Api.network) (op : Api.operation) :
  Api.accepted op = true ->
  Api.getApiBase e <> "" ->
  snd (Api.invoke e net op) = [wire (Api.getApiBase e) op].
Proof.
  intros Ha Hb. apply String.eqb_neq in Hb.
  destruct op as [|note|id note|id]; cbn in *;
    unfold Api.listNotes, Api.createNote, Api.updateNote, Api.deleteNote.
  - unfold Api.request. rewrite Hb. cbn.
    match goal with |- context [net ?c] => destruct (net c) end; reflexivity.
  - apply negb_true_iff in Ha. rewrite Ha. unfold Api.request. rewrite Hb. cbn.
    match goal with |- context [net ?c] => destruct (net c) end; reflexivity.
  - apply andb_true_iff in Ha as [Hi Hn]. apply negb_true_iff in Hn. rewrite Hi, Hn. cbn.
    unfold Api.request. rewrite Hb. cbn.
    match goal with |- context [net ?c] => destruct (net c) end; reflexivity.
  - rewrite Ha. cbn. unfold Api.request. rewrite Hb. cbn.
    match goal with |- context [net ?c] => destruct (net c) end; reflexivity.
Qed.

(** Success. On a 2xx response other than 204, an accepted operation settles
    as the reading of the body does: to the decoded JSON when the content
    type mentions application/json, to the text otherwise, and to the
    reader's error when the body does not read. *)
Theorem success_returns_body (e : Api.env) (net : Api.network) (op : Api.operation)
        (resp : Api.response) :
  Api.accepted op = true ->
  Api.getApiBase e <> "" ->
  (forall c, net c = Ok resp) ->
  Api.ok resp = true -> Api.status resp <> 204 ->
  fst (Api.invoke e net op) =
    (if Api.declares_json resp then Api.json resp
     else match Api.text resp with Ok s => Ok (JStr s) | Throw err => Throw err end).
Proof.
  intros Ha Hb Hnet Hok Hs.
  destruct (invoke_accepted e net op Ha) as (path & o & ->).
  destruct (request_with_response e net path o resp Hb Hnet) as [_ ->].
  rewrite Hok. cbn. apply Z.eqb_neq in Hs. rewrite Hs.
  unfold Api.parseJsonOrText. fold (Api.declares_json resp).
  destruct (Api.declares_json resp); [reflexivity|].
  destruct (Api.text resp); reflexivity.
Qed.

End ClientFacts.

(** ** The page: requests and controls *)

Section RequestFacts.
Context `{Host}.
Import Runs.

Ltac unfold_event :=
  unfold step, run, handler, load_resume, handleSave_resume, handleDelete_resume,
    handleSave, handleDelete, handleNew, handleReset,
    finally, try_catch, bind, lift, gets, ret,
    setError, setSuccess, setToast, setNotes, setSelectedId, setIsLoading,
    setIsSaving, setIsDeleting, setDraftTitle, setDraftContent, setSearch, setDebounced,
    cancel, modify.

Ltac unfold_event_in H :=
  unfold step, run, handler, load_resume, handleSave_resume, handleDelete_resume,
    handleSave, handleDelete, handleNew, handleReset,
    finally, try_catch, bind, lift, gets, ret,
    setError, setSuccess, setToast, setNotes, setSelectedId, setIsLoading,
    setIsSaving, setIsDeleting, setDraftTitle, setDraftContent, setSearch, setDebounced,
    cancel, modify in H.

(** A handler that ends after its updates leaves no request behind. *)
Lemma issued_after_updates (m : M unit) (s : state) :
  issued (run (bind m (fun _ => ret None)) s) = None.
Proof.
  unfold run, bind, ret. destruct (m s) as [s' [a|err]]; reflexivity.
Qed.

Lemma issued_of_settled (s : state) (p : pending) (t : nat) (r : result jsval) :
  issued (step s (Settled p t r)) = None.
Proof. destruct p; apply issued_after_updates. Qed.

(** Where a pending request comes from: a save that got past validation,
    or a delete with a selection. *)
Lemma request_origin (s : state) (ev : event) (p : pending) :
  issued (step s ev) = Some p ->
  ((ev = ClickSave \/ ev = SubmitForm) /\
   next (step s ev) =
     mkState (notes s) (selectedId s) (search s) (debouncedSearch s) (draftTitle s)
       (draftContent s) (isLoading s) true (isDeleting s) None (cancelled s) /\
   exists title content,
     p = if truthy (selectedId s) then PUpdate (selectedId s) title content
         else PCreate title content) \/
  (ev = ClickDelete /\ truthy (selectedId s) = true /\
   p = PDelete (selectedId s) (notes s) /\
   next (step s ev) =
     mkState (notes s) (selectedId s) (search s) (debouncedSearch s) (draftTitle s)
       (draftContent s) (isLoading s) (isSaving s) true None (cancelled s)).
Proof.
  intros Hp.
  destruct ev;
    try (rewrite issued_of_settled in Hp; discriminate);
    try (unfold step, handler in Hp; rewrite issued_after_updates in Hp; discriminate).
  - unfold_event_in Hp. cbn in Hp. discriminate.
  - left. split; [auto|]. apply (save_start s ClickSave p); auto.
  - left. split; [auto|]. apply (save_start s SubmitForm p); auto.
  - right. split; [reflexivity|].
    destruct (truthy (selectedId s)) eqn:E.
    + rewrite (delete_start s E) in Hp |- *. cbn in Hp. injection Hp as <-. auto.
    + unfold_event_in Hp. rewrite E in Hp. cbn in Hp. discriminate.
  - unfold_event_in Hp. unfold selected in Hp.
    destruct (find _ (notes s)); cbn in Hp; discriminate.
Qed.

(** Requests. Every request the page leaves pending is one the client
    accepts: a creation or an update carries a string title and a string
    content, an update or a deletion carries a truthy id.  No event but a
    save or a delete click leaves a request, and mounting leaves the list
    request. *)
Theorem requests_are_accepted (s : state) (ev : event) (p : pending) :
  issued (step s ev) = Some p ->
  Api.accepted (operation_of p) = true /\
  (ev = ClickSave \/ ev = SubmitForm \/ ev = ClickDelete) /\
  issued mount = Some PList.
Proof.
  intros Hp.
  destruct (request_origin s ev p Hp) as [(Hev & _ & ti & co & ->) | (-> & Ht & -> & _)].
  - split; [|split; [tauto|reflexivity]].
    destruct (truthy (selectedId s)) eqn:E; cbn; [rewrite E|]; reflexivity.
  - split; [exact Ht|]. split; [auto|reflexivity].
Qed.

(** No duplicate submission. Once a save has left its request, the saving
    flag is up and neither the header's Save button, nor the form, nor Reset
    can fire; once a delete has left its request, the deleting flag is up
    and the Delete button cannot fire.  In every state in which the list
    is loading, as it is from mounting, no card can be opened. *)
Theorem in_flight_blocks_repeat (s : state) (ev : event) (p : pending) :
  issued (step s ev) = Some p ->
  let s' := next (step s ev) in
  in_flight p s' = true /\
  match p with
  | PDelete _ _ => can_fire s' ClickDelete = false
  | _ => can_fire s' ClickSave = false /\ can_fire s' SubmitForm = false /\
         can_fire s' ClickReset = false
  end /\
  (forall s0 i, isLoading s0 = true -> can_fire s0 (OpenNote i) = false) /\
  isLoading (next mount) = true.
Proof.
  intros Hp. cbn zeta.
  assert (Hopen : (forall s0 i, isLoading s0 = true -> can_fire s0 (OpenNote i) = false) /\
                  isLoading (next mount) = true).
  { split; [|reflexivity]. intros s0 i Hl. cbn. unfold visible. rewrite Hl.
    destruct i; reflexivity. }
  destruct Hopen as [Hopen Hmount].
  destruct (request_origin s ev p Hp) as [(_ & -> & ti & co & ->) | (_ & _ & -> & ->)].
  - destruct (truthy (selectedId s)); cbn; repeat split; auto.
  - cbn. repeat split; auto.
Qed.

Import View Text.

Lemma dropEnd_split (s : string) :
  exists rest, s = dropEndWhile is_space s ++ rest /\ blank_text rest = true.
Proof.
  induction s as [|c s (rest & E & B)]; [exists ""; split; reflexivity|].
  cbn. destruct (dropEndWhile is_space s) as [|d t] eqn:D.
  - destruct (is_space c) eqn:S.
    + exists (String c s). split; [reflexivity|]. cbn. rewrite S. cbn in E. subst rest. exact B.
    + exists rest. split; [cbn; cbn in E; rewrite <- E; reflexivity|exact B].
  - exists rest. split; [cbn; f_equal; exact E|exact B].
Qed.

Lemma dropEnd_last (s : string) : ends_with_space (dropEndWhile is_space s) = false.
Proof.
  induction s as [|c s IH]; cbn; [reflexivity|].
  destruct (dropEndWhile is_space s) as [|d t] eqn:D.
  - destruct (is_space c) eqn:S; cbn; [reflexivity|exact S].
  - exact IH.
Qed.

Lemma dropStart_split (s : string) :
  exists pre, s = pre ++ dropStartWhile is_space s /\ blank_text pre = true /\
              starts_with_space (dropStartWhile is_space s) = false.
Proof.
  induction s as [|c s (pre & E & B & S)]; [exists ""; repeat split|].
  cbn. destruct (is_space c) eqn:C.
  - exists (String c pre). cbn. rewrite C. repeat split; [f_equal; exact E|exact B|exact S].
  - exists "". cbn. repeat split. exact C.
Qed.

Lemma dropStart_keeps_last (s : string) :
  ends_with_space s = false -> ends_with_space (dropStartWhile is_space s) = false.
Proof.
  induction s as [|c s IH]; [reflexivity|].
  cbn [dropStartWhile]. destruct (is_space c) eqn:C; [|trivial].
  destruct s as [|d t]; [intros _; reflexivity|]. exact IH.
Qed.

(** Save payload. A save whose drafts are ASCII strings and whose title does
    not trim to nothing leaves a request, an update of the selected note when
    one is selected and a creation otherwise, that carries the trimmed title
    and the content with the white space at its end removed: the title sent
    is the draft without the white space around it, the content sent is the
    draft without the white space after it, with the white space at its
    start and inside untouched. *)
Theorem save_payload_is_trimmed (s : state) (ev : event) (dt dc : string) :
  ev = ClickSave \/ ev = SubmitForm ->
  draftTitle s = JStr dt -> draftContent s = JStr dc ->
  ascii_only dt = true -> ascii_only dc = true -> trim dt <> "" ->
  issued (step s ev) =
    Some (if truthy (selectedId s) then PUpdate (selectedId s) (trim dt) (trimEnd dc)
          else PCreate (trim dt) (trimEnd dc)) /\
  (exists pre post, dt = pre ++ trim dt ++ post /\
                    blank_text pre = true /\ blank_text post = true) /\
  starts_with_space (trim dt) = false /\ ends_with_space (trim dt) = false /\
  (exists post, dc = trimEnd dc ++ post /\ blank_text post = true) /\
  ends_with_space (trimEnd dc) = false.
Proof.
  intros Hev Ht Hc _ _ Hne. split; [|split; [|split; [|split; [|split]]]].
  - destruct s as [ns sel q dq dt' dc' l sv dl ts c]. cbn in Ht, Hc. subst dt' dc'.
    assert (E1 : call_str "trim" trim (or_else (JStr dt) (JStr "")) = Ok (trim dt)).
    { unfold or_else; cbn. destruct (dt =? "")%string eqn:E; cbn; [|reflexivity].
      apply String.eqb_eq in E. subst dt. reflexivity. }
    assert (E2 : call_str "trimEnd" trimEnd (or_else (JStr dc) (JStr "")) = Ok (trimEnd dc)).
    { unfold or_else; cbn. destruct (dc =? "")%string eqn:E; cbn; [|reflexivity].
      apply String.eqb_eq in E. subst dc. reflexivity. }
    apply String.eqb_neq in Hne.
    destruct Hev as [-> | ->]; unfold_event; cbn; rewrite E1, E2; cbn; rewrite Hne; cbn;
      destruct (truthy sel); reflexivity.
  - unfold trim, trimEnd.
    destruct (dropEnd_split dt) as (post & E & B).
    destruct (dropStart_split (dropEndWhile is_space dt)) as (pre & E' & B' & _).
    exists pre, post. split; [|split; assumption].
    assert (A : forall a b c : string, ((a ++ b) ++ c = a ++ b ++ c)%string).
    { induction a as [|x a IHa]; intros b c; cbn; [reflexivity|]. rewrite IHa. reflexivity. }
    rewrite <- A, <- E'. exact E.
  - unfold trim. destruct (dropStart_split (trimEnd dt)) as (_ & _ & _ & S). exact S.
  - unfold trim, trimEnd. apply dropStart_keeps_last, dropEnd_last.
  - unfold trimEnd. apply dropEnd_split.
  - apply dropEnd_last.
Qed.

Lemma or_else_idem (x e : jsval) : or_else (or_else x e) e = or_else x e.
Proof.
  unfold or_else. destruct (truthy x) eqn:E; [rewrite E; reflexivity|].
  destruct (truthy e); reflexivity.
Qed.

(** Reset. The Reset button asks nothing of the server, clears the toast
    and leaves collection and selection alone; the draft becomes the
    selected note's title and content (an empty string for a falsy one), or
    "Untitled" and an empty content when no note is found for the
    selection.  After it the draft has no edits, and with a truthy selection
    the header's Save button cannot fire. *)
Theorem reset_restores_note (s : state) :
  let o := step s ClickReset in
  issued o = None /\ escaped o = None /\ toast (next o) = None /\
  notes (next o) = notes s /\ selectedId (next o) = selectedId s /\
  match selected s with
  | Some n => draftTitle (next o) = or_else (field "title" n) (JStr "") /\
              draftContent (next o) = or_else (field "content" n) (JStr "")
  | None => draftTitle (next o) = JStr "Untitled" /\ draftContent (next o) = JStr ""
  end /\
  hasEdits (next o) = false /\
  (truthy (selectedId s) = true -> can_fire (next o) ClickSave = false).
Proof.
  destruct s as [ns sel q dq dt dc l sv dl ts c]. cbn zeta.
  unfold_event. unfold selected. cbn [notes selectedId].
  destruct (find (fun n => strict_eq (field "id" n) sel) ns) as [n|] eqn:F; cbn;
    rewrite commit_same_selection by reflexivity; cbn.
  - assert (E : hasEdits (mkState ns sel q dq (or_else (field "title" n) (JStr ""))
                            (or_else (field "content" n) (JStr "")) l sv dl None c) = false).
    { unfold hasEdits, selected. cbn. rewrite F, !or_else_idem, !strict_eq_refl. reflexivity. }
    repeat split; try exact E.
    intros Ht. unfold saveDisabled. cbn. destruct sv; [reflexivity|]. rewrite Ht. cbn.
    rewrite E. reflexivity.
  - assert (E : hasEdits (mkState ns sel q dq (JStr "Untitled") (JStr "") l sv dl None c) = false).
    { unfold hasEdits, selected. cbn. rewrite F. reflexivity. }
    repeat split; try exact E.
    intros Ht. unfold saveDisabled. cbn. destruct sv; [reflexivity|]. rewrite Ht. cbn.
    rewrite E. reflexivity.
Qed.

Lemma filterR_incl {A : Type} (p : A -> result bool) (l l' : list A) :
  filterR p l = Ok l' -> incl l' l.
Proof.
  revert l'; induction l as [|x l IH]; cbn; intros l' E.
  - injection E as <-. apply incl_refl.
  - destruct (p x) as [keep|]; cbn in E; [|discriminate].
    destruct (filterR p l) as [rest|]; cbn in E; [|discriminate].
    injection E as <-. specialize (IH rest eq_refl).
    destruct keep; [apply incl_cons; [left; reflexivity|]|];
      intros y Hy; right; apply IH; exact Hy.
Qed.

(** Every card on screen is a note of the collection. *)
Lemma visible_in_notes (s : state) (n : obj) : In n (visible s) -> In n (notes s).
Proof.
  unfold visible. destruct (isLoading s); [intros []|].
  destruct (filteredNotes (notes s) (debouncedSearch s)) as [l|] eqn:F; [|intros []].
  unfold filteredNotes in F. intros Hn.
  apply (Permutation_in n (Permutation_sym (sort_perm newestFirst (notes s)))).
  destruct (toLowerCase (trim (debouncedSearch s)) =? "")%string.
  - injection F as <-. exact Hn.
  - apply (filterR_incl _ _ _ F). exact Hn.
Qed.

Lemma find_first (f : obj -> bool) (l : list obj) (n : obj) :
  In n l -> f n = true -> exists m, find f l = Some m /\ f m = true.
Proof.
  induction l as [|x l IH]; cbn; [intros []|].
  intros [-> | Hn] Hf.
  - rewrite Hf. eauto.
  - destruct (f x) eqn:E; eauto.
Qed.

(** Opening a note. A click on a card selects that note's id, asks nothing
    of the server and leaves the collection alone; a note with that id is
    found in the collection.  When the id is the one already selected the
    draft is left as it is, edits included; when it is another, the draft
    becomes the title and content of the note found (an empty string for a
    falsy one). *)
Theorem open_note_loads_draft (s : state) (i : nat) (n : obj) :
  nth_error (visible s) i = Some n ->
  let o := step s (OpenNote i) in
  can_fire s (OpenNote i) = true /\
  issued o = None /\ escaped o = None /\ notes (next o) = notes s /\
  selectedId (next o) = field "id" n /\
  (exists m, selected (next o) = Some m /\ strict_eq (field "id" m) (field "id" n) = true /\
     (strict_eq (selectedId s) (field "id" n) = false ->
      draftTitle (next o) = or_else (field "title" m) (JStr "") /\
      draftContent (next o) = or_else (field "content" m) (JStr ""))) /\
  (strict_eq (selectedId s) (field "id" n) = true ->
   draftTitle (next o) = draftTitle s /\ draftContent (next o) = draftContent s).
Proof.
  intros Hn. cbn zeta.
  assert (Hin : In n (notes s)).
  { apply visible_in_notes. apply nth_error_In with i. exact Hn. }
  destruct (find_first (fun m => strict_eq (field "id" m) (field "id" n)) (notes s) n Hin
              (strict_eq_refl _)) as (m & Hm & Hid).
  split; [cbn; rewrite Hn; reflexivity|].
  unfold step, handler. rewrite Hn.
  destruct s as [ns sel q dq dt dc l sv dl ts c]. cbn [notes selectedId] in *.
  unfold_event. cbn. unfold commit. cbn.
  destruct (strict_eq sel (field "id" n)) eqn:E; cbn.
  - do 4 (split; [reflexivity|]). split; [|intros _; split; reflexivity].
    exists m. split; [unfold selected; cbn; exact Hm|]. split; [exact Hid|discriminate].
  - unfold syncDraft, selected, bind, gets. cbn. rewrite Hm. cbn.
    do 4 (split; [reflexivity|]). split; [|discriminate].
    exists m. split; [exact Hm|]. split; [exact Hid|]. intros _. split; reflexivity.
Qed.

Lemma input_search_step (s : state) (v : string) :
  next (step s (InputSearch v)) =
  mkState (notes s) (selectedId s) v (debouncedSearch s) (draftTitle s) (draftContent s)
    (isLoading s) (isSaving s) (isDeleting s) (toast s) (cancelled s).
Proof. unfold_event. cbn. apply commit_same_selection. reflexivity. Qed.

Lemma after_typing (vs : list string) (s : state) :
  after s (map InputSearch vs) =
  mkState (notes s) (selectedId s) (last vs (search s)) (debouncedSearch s) (draftTitle s)
    (draftContent s) (isLoading s) (isSaving s) (isDeleting s) (toast s) (cancelled s).
Proof.
  revert s; induction vs as [|v vs IH]; intros s.
  - destruct s; reflexivity.
  - cbn [map after fold_left]. fold (after (next (step s (InputSearch v))) (map InputSearch vs)).
    rewrite IH, input_search_step. cbn [notes selectedId search debouncedSearch draftTitle
      draftContent isLoading isSaving isDeleting toast cancelled]. f_equal.
    assert (L : forall (l : list string) a b x, last (x :: l) a = last (x :: l) b).
    { induction l as [|y l IHl]; intros a b x; [reflexivity|].
      change (last (y :: l) a = last (y :: l) b). apply IHl. }
    destruct vs as [|w vs]; [reflexivity|].
    change (last (w :: vs) v = last (w :: vs) (search s)). apply L.
Qed.

End RequestFacts.

(** ** Normalization and the collection *)

Section CollectionFacts.
Context `{Host}.
Import Runs.

Ltac unfold_event :=
  unfold step, run, handler, load_resume, handleSave_resume, handleDelete_resume,
    handleSave, handleDelete, handleNew, handleReset,
    finally, try_catch, bind, lift, gets, ret,
    setError, setSuccess, setToast, setNotes, setSelectedId, setIsLoading,
    setIsSaving, setIsDeleting, setDraftTitle, setDraftContent, setSearch, setDebounced,
    cancel, modify.

(** The canonical note in full: the six fields, none of title, content and
    the two timestamps null or undefined, at most two readings of the
    clock. *)
Lemma normalizeNote_form (t : nat) (v : jsval) :
  nullish v = false ->
  exists i ti co u c t',
    normalizeNote t v =
      Ok ([("id", i); ("title", ti); ("content", co);
           ("updatedAt", u); ("createdAt", c); ("raw", v)], t') /\
    nullish ti = false /\ nullish co = false /\ nullish u = false /\ nullish c = false /\
    (t <= t' <= t + 2)%nat.
Proof.
  intros Hv. unfold normalizeNote.
  assert (P : forall k, exists x, prop v k = Ok x).
  { intros k. destruct v; cbn in *; try discriminate; eauto. }
  assert (C : forall a b, (exists x, a = Ok x) -> (exists y, b = Ok y) -> exists z, orR a b = Ok z).
  { intros a b [x ->] [y ->]. cbn. destruct (nullish x); eauto. }
  assert (D : forall a, (exists x, a = Ok x) ->
                        exists z, orR a (Ok (JStr "")) = Ok z /\ nullish z = false).
  { intros a [x ->]. cbn. destruct (nullish x) eqn:E; eauto. }
  destruct (C _ _ (P "id") (C _ _ (P "_id") (C _ _ (P "noteId") (P "uuid")))) as [i ->].
  destruct (D _ (P "title")) as (ti & -> & Hti).
  destruct (D _ (P "content")) as (co & -> & Hco).
  destruct (C _ _ (P "updatedAt") (C _ _ (P "updated_at") (C _ _ (P "modifiedAt") (P "modified_at"))))
    as [u ->].
  destruct (C _ _ (P "createdAt") (P "created_at")) as [c ->].
  cbn [rbind]. unfold or_now, nowIso.
  destruct (nullish u) eqn:Eu; destruct (nullish c) eqn:Ec;
    do 6 eexists; (split; [reflexivity|]); repeat split; auto; lia.
Qed.

Lemma normalizeNote_nullish (t : nat) (v : jsval) :
  nullish v = true -> exists m, normalizeNote t v = Throw (TypeError m).
Proof. destruct v; cbn; try discriminate; intros _; eauto. Qed.

(** Canonical shape. Normalization fails, with a TypeError, on null and on
    undefined and on nothing else.  What it yields has the six canonical
    keys, each once; its title, content and timestamps are never null or
    undefined, its [raw] is the record given, and at most two readings of
    the clock were taken. *)
Theorem normalizeNote_shape (t : nat) (v : jsval) :
  (nullish v = true -> exists m, normalizeNote t v = Throw (TypeError m)) /\
  (nullish v = false ->
   exists n t',
     normalizeNote t v = Ok (n, t') /\
     canonical n /\ unique_keys n /\
     nullish (field "title" n) = false /\ nullish (field "content" n) = false /\
     nullish (field "updatedAt" n) = false /\ nullish (field "createdAt" n) = false /\
     field "raw" n = v /\ (t <= t' <= t + 2)%nat).
Proof.
  split; [apply normalizeNote_nullish|].
  intros Hv. destruct (normalizeNote_form t v Hv) as (i & ti & co & u & c & t' & E & H1 & H2 & H3 & H4 & H5).
  do 2 eexists. split; [exact E|].
  split; [reflexivity|]. split.
  { unfold unique_keys. cbn. repeat (constructor; [cbn; intuition discriminate|]). constructor. }
  cbn. repeat split; auto; lia.
Qed.

(** Normalizing again. A canonical note, given to normalization as a
    record, comes back with the same title, content and timestamps, without
    a reading of the clock, and with itself as [raw]; its id comes back too,
    except that a null id comes back undefined. *)
Theorem renormalize_keeps_fields (t t2 r : nat) (v : jsval) (n : obj) (t1 : nat) :
  normalizeNote t v = Ok (n, t1) ->
  exists n',
    normalizeNote t2 (JObj r n) = Ok (n', t2) /\
    field "title" n' = field "title" n /\ field "content" n' = field "content" n /\
    field "updatedAt" n' = field "updatedAt" n /\ field "createdAt" n' = field "createdAt" n /\
    field "raw" n' = JObj r n /\
    field "id" n' = (if strict_eq (field "id" n) JNull then JUndefined else field "id" n).
Proof.
  intros E.
  assert (Hv : nullish v = false).
  { destruct (nullish v) eqn:N; [|reflexivity].
    destruct (normalizeNote_nullish t v N) as (m & E'). congruence. }
  destruct (normalizeNote_form t v Hv) as (i & ti & co & u & c & t' & E' & H1 & H2 & H3 & H4 & _).
  rewrite E' in E. injection E as <- <-.
  unfold normalizeNote. cbn. unfold orR, or_now. cbn.
  rewrite H1, H2, H3, H4.
  destruct i; cbn; rewrite ?H3, ?H4; eexists; (split; [reflexivity|]); cbn; repeat split.
Qed.

Lemma normalizeNote_ok_canonical (t : nat) (v : jsval) (n : obj) (t' : nat) :
  normalizeNote t v = Ok (n, t') -> canonical n.
Proof.
  intros E. destruct (nullish v) eqn:N.
  - destruct (normalizeNote_nullish t v N) as (m & E'). congruence.
  - destruct (normalizeNote_form t v N) as (i & ti & co & u & c & t'' & E' & _).
    rewrite E' in E. injection E as <- _. reflexivity.
Qed.

Lemma normalizeAll_canonical (items : list jsval) (t : nat) (ns : list obj) (t' : nat) :
  normalizeAll t items = Ok (ns, t') ->
  Forall canonical ns /\ List.length ns = List.length items.
Proof.
  revert t ns t'; induction items as [|x items IH]; cbn; intros t ns t' E.
  - injection E as <- _. split; [constructor|reflexivity].
  - destruct (normalizeNote t x) as [[n t1]|] eqn:N; cbn in E; [|discriminate].
    destruct (normalizeAll t1 items) as [[l t2]|] eqn:A; cbn in E; [|discriminate].
    injection E as <- _. destruct (IH _ _ _ A) as [F L].
    split; [constructor; [exact (normalizeNote_ok_canonical _ _ _ _ N)|exact F]|].
    cbn. rewrite L. reflexivity.
Qed.

Lemma normalizeAll_total (items : list jsval) (t : nat) :
  Forall (fun v => nullish v = false) items ->
  exists ns t', normalizeAll t items = Ok (ns, t').
Proof.
  revert t; induction items as [|x items IH]; cbn; intros t Hall; [eauto|].
  inversion Hall as [|? ? Hx Hr]; subst.
  destruct (normalizeNote_form t x Hx) as (i & ti & co & u & c & t1 & -> & _).
  cbn. destruct (IH t1 Hr) as (ns & t' & ->). cbn. eauto.
Qed.

Lemma normalizeAll_bad (items : list jsval) (t : nat) :
  Exists (fun v => nullish v = true) items ->
  exists m, normalizeAll t items = Throw (TypeError m).
Proof.
  intros Hx. revert t; induction Hx as [x items Hx | x items Hx IH]; intros t; cbn.
  - destruct (normalizeNote_nullish t x Hx) as (m & ->). cbn. eauto.
  - destruct (normalizeNote t x) as [[n t1]|[en em]] eqn:N; cbn.
    + destruct (IH t1) as (m & ->). cbn. eauto.
    + destruct (nullish x) eqn:Nx.
      * destruct (normalizeNote_nullish t x Nx) as (m & E). rewrite E in N.
        injection N as <- <-. eauto.
      * destruct (normalizeNote_form t x Nx) as (i & ti & co & u & c & t1 & E & _).
        congruence.
Qed.

Lemma arr_of_carries (res : jsval) (items : list jsval) :
  carries res items -> exists r, arr_of res = Ok (JArr r items).
Proof.
  intros [(r & ->) | (r & r' & fs & -> & L)]; cbn; [eauto|].
  rewrite L. cbn. eauto.
Qed.

(** A record with a string title and content normalizes to a string note. *)
Lemma normalizeNote_texty (t : nat) (v : jsval) (n : obj) (t' : nat) :
  Text.texted v = true -> normalizeNote t v = Ok (n, t') -> texty n.
Proof.
  unfold Text.texted, normalizeNote. intros Hx E.
  destruct (prop v "title") as [ti|] eqn:Pt; [|discriminate].
  destruct (prop v "content") as [co|] eqn:Pc; [|discriminate].
  apply andb_true_iff in Hx as [Hti Hco].
  destruct (orR (prop v "id") _) as [i|]; cbn in E; [|discriminate].
  destruct (orR (prop v "updatedAt") _) as [u|]; [|destruct ti, co; cbn in E; discriminate].
  destruct (orR (prop v "createdAt") _) as [c|]; [|destruct ti, co; cbn in E; destruct (or_now u t); discriminate].
  destruct ti; try discriminate Hti; destruct co; try discriminate Hco;
    cbn in E; destruct (or_now u t) as [ua t1]; destruct (or_now c t1) as [ca t2];
    injection E as <- _; unfold texty, field; cbn; split; eauto.
Qed.

Lemma normalizeAll_texty (items : list jsval) (t : nat) (ns : list obj) (t' : nat) :
  Forall (fun v => Text.texted v = true) items ->
  normalizeAll t items = Ok (ns, t') -> Forall texty ns.
Proof.
  revert t ns t'; induction items as [|x items IH]; cbn; intros t ns t' Hall E.
  - injection E as <- _. constructor.
  - inversion Hall as [|? ? Hx Hr]; subst.
    destruct (normalizeNote t x) as [[n t1]|] eqn:N; cbn in E; [|discriminate].
    destruct (normalizeAll t1 items) as [[l t2]|] eqn:A; cbn in E; [|discriminate].
    injection E as <- _.
    constructor; [exact (normalizeNote_texty _ _ _ _ Hx N)|exact (IH _ _ _ Hr A)].
Qed.

(** Load. On a mounted page, a list response that carries records, bare or
    under [notes], none of them null or undefined and each with a title and
    a content that is a string or absent, replaces the collection by their
    normalization, one note per record and in their order; the selection is
    kept when there is one and is the first note's id otherwise; loading is
    over, the toast is untouched, nothing escapes.  The notes have string
    titles and contents, so the list filters by any query and every card
    has its snippet.  From mounting, with a first note that has an id, that
    note is selected and shown in the draft. *)
Theorem load_success (s : state) (t : nat) (res : jsval) (items : list jsval) :
  cancelled s = false ->
  carries res items ->
  Forall (fun v => nullish v = false) items ->
  Forall (fun v => Text.texted v = true) items ->
  exists ns t',
    normalizeAll t items = Ok (ns, t') /\
    List.length ns = List.length items /\ Forall canonical ns /\
    Forall texty ns /\
    (forall query, exists l, filteredNotes ns query = Ok l) /\
    Forall (fun n => exists r, View.snippet (field "content" n) = Ok r) ns /\
    let o := step s (Settled PList t (Ok res)) in
    notes (next o) = ns /\
    selectedId (next o) = coalesce (selectedId s) (first_id ns) /\
    isLoading (next o) = false /\ toast (next o) = toast s /\ escaped o = None /\
    (forall n rest, s = next mount -> ns = n :: rest -> nullish (field "id" n) = false ->
       selectedId (next o) = field "id" n /\
       draftTitle (next o) = field "title" n /\
       draftContent (next o) = field "content" n).
Proof.
  intros Hc Hres Hall Htx.
  destruct (normalizeAll_total items t Hall) as (ns & t' & E).
  destruct (normalizeAll_canonical _ _ _ _ E) as [Hcan Hlen].
  assert (Hty : Forall texty ns) by exact (normalizeAll_texty _ _ _ _ Htx E).
  exists ns, t'. split; [exact E|]. split; [exact Hlen|]. split; [exact Hcan|].
  split; [exact Hty|].
  split.
  { intros query. unfold filteredNotes.
    destruct (toLowerCase (trim query) =? "")%string; [eauto|].
    rewrite filterR_matches; [eauto|].
    apply (Permutation_Forall (sort_perm newestFirst ns)). exact Hty. }
  split.
  { apply Forall_forall. intros n Hn.
    destruct (proj1 (Forall_forall _ _) Hty n Hn) as [_ (c & Ec)]. rewrite Ec.
    unfold View.snippet, or_else. cbn.
    destruct (c =? "")%string; cbn; [eauto|].
    destruct (View.collapse (trim c) =? "")%string; eauto. }
  destruct (arr_of_carries res items Hres) as (r & Ha).
  destruct s as [ns0 sel q dq dt dc l sv dl ts c]. cbn in Hc. subst c. cbn zeta.
  unfold_event. cbn. rewrite Ha. cbn. rewrite E. cbn.
  match goal with |- context [commit ?a ?b] =>
    destruct (commit_keeps a b) as (E1 & E2 & E3 & E4 & _) end.
  rewrite E1, E2, E3, E4. cbn.
  do 5 (split; [reflexivity|]).
  intros n rest Hm -> Hid. inversion Hm; subst. cbn.
  assert (Hne : strict_eq JNull (field "id" n) = false).
  { destruct (field "id" n); cbn in *; congruence. }
  unfold commit, coalesce. cbn [selectedId]. rewrite !Hid, Hne. split; [reflexivity|].
  unfold syncDraft, selected, bind, gets. cbn.
  rewrite strict_eq_refl. cbn.
  inversion Hty as [|? ? [(ti & Eti) (co & Eco)] _]; subst.
  rewrite Eti, Eco. unfold or_else. cbn.
  split; [destruct (ti =? "")%string eqn:X|destruct (co =? "")%string eqn:X]; cbn;
    try reflexivity; apply String.eqb_eq in X; subst; reflexivity.
Qed.

(** Load, bad list. On a mounted page, a list response that carries a null
    or undefined record, or whose [notes] field is truthy and not an array,
    fails the load as a whole: collection, selection and draft stay as they
    were, the toast is an error, loading is over and nothing escapes; no
    record of the list is taken in. *)
Theorem load_rejects_bad_list (s : state) (t : nat) (res : jsval) :
  cancelled s = false ->
  (exists items, carries res items /\ Exists (fun v => nullish v = true) items) \/
  (exists r fs v, res = JObj r fs /\ lookup "notes" fs = Some v /\ truthy v = true /\
                  forall r' items, v <> JArr r' items) ->
  let o := step s (Settled PList t (Ok res)) in
  same_data s (next o) /\
  (exists m, toast (next o) = error_toast m) /\
  isLoading (next o) = false /\ escaped o = None.
Proof.
  intros Hc Hbad.
  assert (E : exists arr m, arr_of res = Ok arr /\ map_normalize t arr = Throw (TypeError m)).
  { destruct Hbad as [(items & Hres & Hx) | (r & fs & v & -> & L & Tv & Hv)].
    - destruct (arr_of_carries res items Hres) as (r & Ha).
      destruct (normalizeAll_bad items t Hx) as (m & Hm).
      exists (JArr r items), m. split; [exact Ha|exact Hm].
    - exists v. cbn. rewrite L. cbn. unfold or_else. rewrite Tv.
      destruct v; cbn in Tv; try discriminate; try (eexists; split; reflexivity).
      exfalso. eapply Hv. reflexivity. }
  destruct E as (arr & m & Ha & Hm).
  destruct s as [ns0 sel q dq dt dc l sv dl ts c]. cbn in Hc. subst c. cbn zeta.
  unfold_event. cbn. rewrite Ha. cbn. rewrite Hm. cbn.
  rewrite commit_same_selection by reflexivity. cbn.
  repeat split. eexists. reflexivity.
Qed.

(** Save without a record. When the create or update request succeeds with
    null or undefined in place of a record (the client's answer to a 204),
    the save ends as a failure: the toast is an error, the collection, the
    selection and the draft stay as they were, saving is over and nothing
    escapes. *)
Theorem save_without_record_fails (s : state) (p : pending) (t : nat) (v : jsval) :
  (exists title content, p = PCreate title content) \/
  (exists sid title content, p = PUpdate sid title content) ->
  nullish v = true ->
  let o := step s (Settled p t (Ok v)) in
  same_data s (next o) /\
  (exists m, toast (next o) = error_toast m) /\
  isSaving (next o) = false /\ escaped o = None.
Proof.
  intros Hp Hv. destruct (normalizeNote_nullish t v Hv) as (m & Hm).
  destruct s as [ns0 sel q dq dt dc l sv dl ts c]. cbn zeta.
  destruct Hp as [(ti & co & ->) | (sid & ti & co & ->)];
    unfold_event; cbn; rewrite Hm; cbn;
    rewrite commit_same_selection by reflexivity; cbn;
    repeat split; eexists; reflexivity.
Qed.

(** *** Spread over objects with the same keys *)

Lemma lookup_absent (k : string) (o : obj) : ~ In k (map fst o) -> lookup k o = None.
Proof.
  induction o as [|[k0 v0] o IH]; cbn; intros Hn; [reflexivity|].
  destruct (k =? k0)%string eqn:E.
  - apply String.eqb_eq in E. subst. tauto.
  - apply IH. tauto.
Qed.

Lemma lookup_present (k : string) (o : obj) : In k (map fst o) -> lookup k o <> None.
Proof.
  induction o as [|[k0 v0] o IH]; cbn; [tauto|].
  intros [-> | Hin]; [rewrite String.eqb_refl; discriminate|].
  destruct (k =? k0)%string; [discriminate|auto].
Qed.

Lemma obj_ext (a b : obj) :
  map fst a = map fst b -> NoDup (map fst a) ->
  (forall k, lookup k a = lookup k b) -> a = b.
Proof.
  revert b; induction a as [|[k v] a IH]; intros [|[k' v'] b]; cbn; try discriminate; auto.
  intros [= <- Hk] Hd Hl. inversion Hd as [|? ? Hn Hd']; subst.
  pose proof (Hl k) as Hk0. rewrite String.eqb_refl in Hk0. injection Hk0 as <-.
  f_equal. apply IH; auto.
  intros j. specialize (Hl j). destruct (j =? k)%string eqn:E; [|exact Hl].
  apply String.eqb_eq in E. subst j.
  rewrite (lookup_absent k a Hn). rewrite Hk in Hn. rewrite (lookup_absent k b Hn). reflexivity.
Qed.

Lemma put_keys (k : string) (v : jsval) (o : obj) :
  In k (map fst o) -> map fst (put k v o) = map fst o.
Proof.
  induction o as [|[k0 v0] o IH]; cbn; [tauto|].
  destruct (k =? k0)%string eqn:E.
  - apply String.eqb_eq in E. subst. reflexivity.
  - intros [-> | Hin]; [rewrite String.eqb_refl in E; discriminate|].
    cbn. rewrite IH; auto.
Qed.

Lemma assign_keys (src target : obj) :
  incl (map fst src) (map fst target) -> map fst (assign target src) = map fst target.
Proof.
  unfold assign. revert target; induction src as [|[k v] src IH]; intros target Hi; cbn;
    [reflexivity|].
  assert (Hk : In k (map fst target)) by (apply Hi; left; reflexivity).
  rewrite IH; rewrite put_keys by exact Hk; [reflexivity|].
  intros j Hj. apply Hi. right. exact Hj.
Qed.

Lemma put_fresh (k : string) (v : jsval) (o : obj) :
  ~ In k (map fst o) -> put k v o = (o ++ [(k, v)])%list.
Proof.
  induction o as [|[k0 v0] o IH]; cbn; intros Hn; [reflexivity|].
  destruct (k =? k0)%string eqn:E.
  - apply String.eqb_eq in E. subst. tauto.
  - rewrite IH by tauto. reflexivity.
Qed.

Lemma assign_fresh (src acc : obj) :
  NoDup (map fst (acc ++ src)%list) -> assign acc src = (acc ++ src)%list.
Proof.
  unfold assign. revert acc; induction src as [|[k v] src IH]; intros acc Hd; cbn.
  - rewrite app_nil_r. reflexivity.
  - assert (Hn : ~ In k (map fst acc)).
    { rewrite map_app in Hd. cbn in Hd. apply NoDup_remove_2 in Hd.
      intros Hin. apply Hd. apply in_or_app. left. exact Hin. }
    rewrite put_fresh by exact Hn. rewrite IH; rewrite <- app_assoc; [reflexivity|exact Hd].
Qed.

(** Over an object with the same keys in the same order, a spread keeps
    nothing of the first object. *)
Lemma spread2_same_keys (a b : obj) :
  map fst a = map fst b -> NoDup (map fst a) -> spread2 a b = b.
Proof.
  intros Hk Hd. unfold spread2. rewrite (assign_fresh a []) by exact Hd. cbn [app].
  apply obj_ext.
  - rewrite assign_keys; [exact Hk|]. rewrite Hk. apply incl_refl.
  - rewrite assign_keys; [exact Hd|]. rewrite Hk. apply incl_refl.
  - intros k. rewrite lookup_assign, lookup_rev by (unfold unique_keys; rewrite <- Hk; exact Hd).
    destruct (lookup k b) eqn:E; [reflexivity|].
    apply lookup_absent. intros Hin. rewrite Hk in Hin. apply (lookup_present k b Hin E).
Qed.

Lemma canonical_unique (n : obj) : canonical n -> NoDup (map fst n).
Proof.
  unfold canonical. intros ->. unfold canonical_keys.
  repeat (constructor; [cbn; intuition discriminate|]). constructor.
Qed.

(** Update replaces. When the entries of the collection are canonical notes,
    an update that succeeds with a record replaces every entry that has the
    selected id by the normalized record itself: nothing of the old entry
    survives, its [raw] included, and the entry's id becomes the one the
    server answered with. *)
Theorem update_replaces_entry (s : state) (sid : jsval) (title content : string)
        (t : nat) (updated : jsval) :
  Forall canonical (notes s) ->
  nullish updated = false ->
  exists nz t',
    normalizeNote t updated = Ok (nz, t') /\
    notes (next (step s (Settled (PUpdate sid title content) t (Ok updated)))) =
      map (fun n => if strict_eq (field "id" n) sid then nz else n) (notes s).
Proof.
  intros Hcan Hu. destruct (normalizeNote_total t updated Hu) as (nz & t' & Hn & Hk).
  exists nz, t'. split; [exact Hn|].
  rewrite (update_settles s sid title content t t' updated nz Hn). cbn [next notes].
  apply map_ext_in. intros n Hin.
  destruct (strict_eq (field "id" n) sid); [|reflexivity].
  rewrite Forall_forall in Hcan. specialize (Hcan n Hin).
  apply spread2_same_keys; [rewrite Hk; exact Hcan|apply canonical_unique; exact Hcan].
Qed.

Lemma map_normalize_canonical (t : nat) (arr : jsval) (ns : list obj) (t' : nat) :
  map_normalize t arr = Ok (ns, t') -> Forall canonical ns.
Proof.
  destruct arr; cbn; try discriminate.
  intros E. apply (normalizeAll_canonical _ _ _ _ E).
Qed.

Lemma notes_of_step (s : state) (ev : event) :
  notes (next (step s ev)) = notes (fst (handler s ev s)).
Proof.
  unfold step, run. destruct (handler s ev s) as [s' r]. cbn.
  apply (commit_keeps s s').
Qed.

Lemma Forall_filter_keep {A : Type} (P : A -> Prop) (f : A -> bool) (l : list A) :
  Forall P l -> Forall P (filter f l).
Proof.
  rewrite !Forall_forall. intros Hl x Hx. apply filter_In in Hx. apply Hl. tauto.
Qed.

(** Canonical collection. Whatever happens on the page, the entries of the
    collection stay canonical notes (the six keys, each once): the
    collection starts empty, and a load, a create, an update, a delete and
    every other event keep that shape. *)
Theorem collection_stays_canonical (s : state) (ev : event) :
  Forall canonical (notes s) ->
  Forall canonical (notes (next (step s ev))) /\ notes (next mount) = [].
Proof.
  intros Hcan. split; [|reflexivity]. rewrite notes_of_step.
  destruct s as [ns sel q dq dt dc l sv dl ts c]. cbn [notes] in Hcan.
  destruct ev as [| | | | |i|v|v|v| | |p t r].
  - exact Hcan.
  - unfold_event. cbn.
    destruct (call_str "trim" trim (or_else dt (JStr ""))) as [ti|]; cbn; [|exact Hcan].
    destruct (call_str "trimEnd" trimEnd (or_else dc (JStr ""))) as [co|]; cbn; [|exact Hcan].
    destruct (ti =? "")%string; cbn; [exact Hcan|]. destruct (truthy sel); exact Hcan.
  - unfold_event. cbn.
    destruct (call_str "trim" trim (or_else dt (JStr ""))) as [ti|]; cbn; [|exact Hcan].
    destruct (call_str "trimEnd" trimEnd (or_else dc (JStr ""))) as [co|]; cbn; [|exact Hcan].
    destruct (ti =? "")%string; cbn; [exact Hcan|]. destruct (truthy sel); exact Hcan.
  - unfold_event. cbn. destruct (truthy sel); exact Hcan.
  - unfold_event. unfold selected. cbn.
    destruct (find _ ns); exact Hcan.
  - unfold handler.
    destruct (nth_error _ i); unfold_event; exact Hcan.
  - exact Hcan.
  - exact Hcan.
  - exact Hcan.
  - exact Hcan.
  - exact Hcan.
  - destruct p as [|ti co|sid ti co|sid notes0]; unfold_event; cbn -[spread2].
    + destruct r as [res|err]; cbn; [|destruct c; exact Hcan].
      destruct (arr_of res) as [arr|err]; cbn; [|destruct c; exact Hcan].
      destruct (map_normalize t arr) as [[nz t']|err] eqn:E; cbn; [|destruct c; exact Hcan].
      destruct c; cbn; [exact Hcan|]. exact (map_normalize_canonical _ _ _ _ E).
    + destruct r as [v|err]; cbn; [|exact Hcan].
      destruct (normalizeNote t v) as [[nz t']|err] eqn:E; cbn; [|exact Hcan].
      constructor; [exact (normalizeNote_ok_canonical _ _ _ _ E)|exact Hcan].
    + destruct r as [v|err]; cbn -[spread2]; [|exact Hcan].
      destruct (normalizeNote t v) as [[nz t']|err] eqn:E; cbn -[spread2]; [|exact Hcan].
      pose proof (normalizeNote_ok_canonical _ _ _ _ E) as Hnz.
      apply Forall_forall. intros x Hx. apply in_map_iff in Hx as (n & <- & Hn).
      rewrite Forall_forall in Hcan. specialize (Hcan n Hn).
      destruct (strict_eq (field "id" n) sid); [|exact Hcan].
      rewrite spread2_same_keys; [exact Hnz| |apply canonical_unique; exact Hcan].
      unfold canonical in *. congruence.
    + destruct r as [v|err]; cbn; [|exact Hcan].
      apply Forall_filter_keep. exact Hcan.
Qed.

End CollectionFacts.

(** ** Order among notes of the same time *)

Section StabilityFacts.
Context `{Host}.
Import Runs.

Lemma sort_insert_timed (k : Z) (x : obj) (l : list obj) :
  dated x -> Forall dated l ->
  filter (timed k) (sort_insert newestFirst x l) = filter (timed k) (x :: l).
Proof.
  intros Hx Hl. induction Hl as [|y l Hy Hl IH]; [reflexivity|].
  cbn [sort_insert]. destruct (goes_first newestFirst x y) eqn:G; [reflexivity|].
  cbn [filter] in *. rewrite IH.
  unfold goes_first, newestFirst in G. unfold dated in Hx, Hy. unfold timed.
  destruct (sortTime x) as [tx|]; [|congruence].
  destruct (sortTime y) as [ty|]; [|congruence].
  apply Z.leb_gt in G.
  destruct (tx =? k) eqn:Ex; [|reflexivity].
  apply Z.eqb_eq in Ex. subst k.
  assert (Ey : (ty =? tx) = false) by (apply Z.eqb_neq; lia).
  rewrite Ey. reflexivity.
Qed.

(** Stable order. When every note has a valid time, notes of the same time
    are listed in the order they have in the collection: sorting moves a
    note only past notes of another time. *)
Theorem visible_list_is_stable (ns : list obj) (k : Z) :
  Forall dated ns ->
  exists base,
    filteredNotes ns "" = Ok base /\
    filter (timed k) base = filter (timed k) ns.
Proof.
  intros Hd. exists (sort newestFirst ns). split; [reflexivity|].
  induction Hd as [|x l Hx Hl IH]; [reflexivity|].
  cbn [sort]. rewrite sort_insert_timed.
  - cbn [filter]. rewrite IH. reflexivity.
  - exact Hx.
  - apply (Permutation_Forall (sort_perm newestFirst l)). exact Hl.
Qed.

End StabilityFacts.

(** ** The debounced value *)

Section DebounceFacts.
Import Debounce.
Variable delayMs : nat.

Lemma rapid_app (pre post : list (nat * tick)) (due : nat) (v : string) :
  rapid delayMs due v (pre ++ post)%list -> rapid delayMs due v pre.
Proof.
  revert due v; induction pre as [|[now e] pre IH]; cbn; intros due v Hr; [exact I|].
  destruct Hr as [Hlt Hr]. split; [exact Hlt|]. destruct e; eapply IH; exact Hr.
Qed.

(** The callback of a pending timer sets the value of the last render: this
    is what the page's event [DebounceElapsed] does with the search text. *)
Lemma timer_holds_value (trace : list (nat * tick)) (h : hook) :
  (forall v due, timer h = Some (v, due) -> v = value h) ->
  forall v due, timer (play delayMs h trace) = Some (v, due) -> v = value (play delayMs h trace).
Proof.
  revert h; induction trace as [|[now e] trace IH]; intros h Hi; [exact Hi|].
  change (play delayMs h ((now, e) :: trace))
    with (play delayMs (react delayMs h (now, e)) trace).
  apply IH. destruct e as [w|]; cbn [react fst snd].
  - unfold render. destruct (w =? value h)%string; [exact Hi|].
    cbn. intros v due [= <- _]. reflexivity.
  - unfold timeout. destruct (timer h) as [[v0 due0]|] eqn:T; [|rewrite T; discriminate].
    destruct (Nat.leb due0 now); cbn; [discriminate|]. rewrite T. intros v due [= <- _].
    exact (Hi v0 due0 eq_refl).
Qed.

(** During a burst no timer runs: the debounced value stays, and the timer
    left is the one of the last value. *)
Lemma play_rapid (trace : list (nat * tick)) (h : hook) (due : nat) :
  timer h = Some (value h, due) ->
  rapid delayMs due (value h) trace ->
  debounced (play delayMs h trace) = debounced h /\
  value (play delayMs h trace) = last_value (value h) trace /\
  exists due', timer (play delayMs h trace) = Some (value (play delayMs h trace), due').
Proof.
  revert h due; induction trace as [|[now e] trace IH]; intros h due Ht Hr.
  - cbn. eauto.
  - cbn in Hr. destruct Hr as [Hlt Hr].
    change (play delayMs h ((now, e) :: trace))
      with (play delayMs (react delayMs h (now, e)) trace).
    destruct e as [w|]; cbn [react fst snd last_value].
    + unfold render. destruct (w =? value h)%string eqn:E.
      * apply String.eqb_eq in E. subst w. exact (IH h due Ht Hr).
      * exact (IH {| value := w; debounced := debounced h;
                     timer := Some (w, (now + delayMs)%nat) |} _ eq_refl Hr).
    + unfold timeout. rewrite Ht.
      destruct (Nat.leb due now) eqn:L; [apply Nat.leb_le in L; lia|].
      exact (IH h due Ht Hr).
Qed.

(** Debounce. While the renders with a new value come less than [delayMs]
    after one another, the debounced value stays what it was, at every
    point of the burst, whatever the host does with its timers in between;
    the timer left is that of the last value: before it is due nothing
    changes, and from then on it sets the debounced value to the last value
    and is gone.  After a pause, by contrast, the value of before the pause
    is the debounced one when the next render comes. *)
Theorem burst_is_coalesced (h : hook) (due : nat) (trace : list (nat * tick)) :
  timer h = Some (value h, due) ->
  rapid delayMs due (value h) trace ->
  let h' := play delayMs h trace in
  (forall pre post, trace = (pre ++ post)%list ->
     debounced (play delayMs h pre) = debounced h) /\
  debounced h' = debounced h /\
  value h' = last_value (value h) trace /\
  (exists due',
     timer h' = Some (value h', due') /\
     (forall now, (now < due')%nat -> timeout now h' = h') /\
     (forall now, (due' <= now)%nat ->
        debounced (timeout now h') = value h' /\ timer (timeout now h') = None)) /\
  (forall now w, (due <= now)%nat ->
     debounced (play delayMs h [(now, Timeout); (now, Render w)]) = value h).
Proof.
  intros Ht Hr. cbn zeta.
  destruct (play_rapid trace h due Ht Hr) as (Hd & Hv & due' & Hd').
  split; [|split; [exact Hd|split; [exact Hv|split]]].
  - intros pre post ->. apply rapid_app in Hr.
    destruct (play_rapid pre h due Ht Hr) as (E & _). exact E.
  - exists due'. split; [exact Hd'|]. split.
    + intros now Hlt. unfold timeout. rewrite Hd'.
      destruct (Nat.leb due' now) eqn:L; [apply Nat.leb_le in L; lia|reflexivity].
    + intros now Hle. unfold timeout. rewrite Hd'.
      apply Nat.leb_le in Hle. rewrite Hle. split; reflexivity.
  - intros now w Hle. cbn. unfold timeout at 1. rewrite Ht.
    apply Nat.leb_le in Hle. rewrite Hle. unfold render. cbn.
    destruct (w =? value h)%string; reflexivity.
Qed.

End DebounceFacts.

(** ** The properties on the sample data *)

#[local] Existing Instance Sample.host.

Lemma delete_selects_next_on_sample :
  truthy (selectedId Sample.opened) = true /\
  exists p,
    issued (step Sample.opened ClickDelete) = Some p /\
    let o := step (next (step Sample.opened ClickDelete)) (Settled p 0 (Ok JNull)) in
    notes (next o) = [Sample.B] /\ selectedId (next o) = JStr "b" /\
    toast (next o) = success_toast "Note deleted.".
Proof.
  split; [reflexivity|].
  destruct (delete_selects_next Sample.opened 0%nat JNull eq_refl)
    as (p & Hp & Hn & Hs & _ & _ & _ & Ht & _).
  exists p. split; [exact Hp|]. cbn zeta.
  rewrite Hn, Hs, Ht. repeat split.
Qed.


Lemma visible_list_sorted_when_dated_witness :
  Forall dated [Sample.B; Sample.A] /\
  filteredNotes [Sample.B; Sample.A] "" = Ok [Sample.A; Sample.B] /\
  StronglySorted newer_or_same [Sample.A; Sample.B] /\
  filteredNotes [Sample.B; Sample.A] "bet" = Ok [Sample.B].
Proof.
  assert (Hd : Forall dated [Sample.B; Sample.A]).
  { repeat constructor; discriminate. }
  destruct (visible_list_sorted_when_dated [Sample.B; Sample.A] Hd) as (base & Hv & _ & Hs & _).
  split; [exact Hd|].
  assert (Hv' := Hv). vm_compute in Hv'. injection Hv' as <-.
  split; [reflexivity|]. split; [exact Hs|reflexivity].
Defined.

(** With a note whose timestamp is no date in between, an older note is
    listed before a newer one. *)
Lemma visible_list_sorted_counterexample :
  let ns := [Sample.B; Cases.undated; Sample.A] in
  sortTime Sample.B = Some 100 /\ sortTime Cases.undated = None /\
  sortTime Sample.A = Some 200 /\
  filteredNotes ns "" = Ok ns /\
  ~ StronglySorted not_before ns.
Proof.
  cbn zeta. do 4 (split; [reflexivity|]).
  intros Hs. inversion Hs as [|? ? _ Hall]; subst.
  inversion Hall as [|? ? _ Hall']; subst.
  inversion Hall' as [|? ? Hba _]; subst.
  vm_compute in Hba. apply Hba. reflexivity.
Qed.

Lemma normalizeNote_canonical_witness :
  exists n t',
    normalizeNote 0 (JObj 1 Sample.foreign) = Ok (n, t') /\
    field "id" n = JStr "x1" /\ field "updatedAt" n = JStr "2024-01-01" /\
    field "createdAt" n = JStr (clock 0) /\ t' = 1%nat.
Proof.
  destruct (normalizeNote_canonical 1 Sample.foreign 0) as (n & t' & Hn & _ & Ht & _ & Hi & Hu).
  exists n, t'. split; [exact Hn|].
  split; [exact (Hi (JStr "x1") eq_refl eq_refl eq_refl)|].
  split; [exact (Hu (JStr "2024-01-01") eq_refl eq_refl eq_refl)|].
  destruct Ht as (tu & (_ & Etu) & (Ec & Et')). subst tu. split; assumption.
Defined.

Lemma save_update_merges_on_sample :
  issued (step Sample.edited ClickSave) = Some (PUpdate (JStr "a") "Alpha 2" "first") /\
  nullish Sample.updatedA = false /\
  let o := step (next (step Sample.edited ClickSave))
                (Settled (PUpdate (JStr "a") "Alpha 2" "first") 0 (Ok Sample.updatedA)) in
  notes (next o) = [Sample.mergedA; Sample.B] /\
  selectedId (next o) = JStr "a" /\
  toast (next o) = success_toast "Note saved.".
Proof.
  split; [reflexivity|]. split; [reflexivity|].
  destruct (save_update_merges Sample.edited ClickSave (JStr "a") "Alpha 2" "first" 0
              Sample.updatedA (or_introl eq_refl) eq_refl eq_refl)
    as (nz & t' & Hn & _ & _ & Hnotes & _ & _ & _ & _ & Hsel & _ & _ & Ht & _).
  cbn zeta. rewrite Hnotes, Hsel, Ht.
  vm_compute in Hn. injection Hn as <- <-. repeat split.
Qed.

(** An operation that refuses its arguments fails with its own error, base
    URL or not; and a response that is not 2xx and whose declared JSON body
    does not parse fails the operation with the parser's error, which
    carries neither status nor body. *)
Lemma client_error_contract_counterexample :
  let any : Api.network := fun _ => Ok Cases.broken in
  (Api.getApiBase Sample.no_env = "" /\
   fst (Api.invoke Sample.no_env any (Api.OpDelete (JStr ""))) = Throw (Error "Missing note id.") /\
   Error "Missing note id." <> Api.missing_base) /\
  (Api.getApiBase Sample.some_env <> "" /\ Api.ok Cases.broken = false /\
   Api.declares_json Cases.broken = true /\
   fst (Api.invoke Sample.some_env any Api.OpList) = Throw Cases.syntax_error /\
   forall details, Cases.syntax_error <> Api.api_error Cases.broken details).
Proof.
  cbn zeta. split.
  - split; [reflexivity|]. split; [reflexivity|]. discriminate.
  - split; [discriminate|]. do 3 (split; [reflexivity|]).
    intros details. unfold Api.api_error, Cases.syntax_error, Error. discriminate.
Qed.

Lemma client_error_contract_witness :
  let down : Api.network := fun _ => Throw (TypeError "Failed to fetch") in
  let gone : Api.network := fun _ => Ok Sample.no_content in
  let lost : Api.network := fun _ => Ok Sample.not_found in
  Api.accepted (Api.OpDelete (JStr "a")) = true /\
  Api.invoke Sample.no_env down (Api.OpDelete (JStr "a")) = (Throw Api.missing_base, []) /\
  fst (Api.invoke Sample.some_env gone (Api.OpDelete (JStr "a"))) = Ok JNull /\
  fst (Api.invoke Sample.some_env lost (Api.OpDelete (JStr "a"))) =
    Throw (Error "API error 404 Not Found: no such note").
Proof.
  cbn zeta. split; [reflexivity|]. split; [|split].
  - apply (client_error_contract Sample.no_env _ (Api.OpDelete (JStr "a")) eq_refl).
    left. split; reflexivity.
  - destruct (client_error_contract Sample.some_env (fun _ => Ok Sample.no_content)
                (Api.OpDelete (JStr "a")) eq_refl) as (_ & _ & H204).
    destruct (H204 Sample.no_content) as (E & _); [discriminate|reflexivity|reflexivity|].
    rewrite E. reflexivity.
  - destruct (client_error_contract Sample.some_env (fun _ => Ok Sample.not_found)
                (Api.OpDelete (JStr "a")) eq_refl) as (_ & Herr & _).
    destruct (Herr Sample.not_found) as (_ & _ & _ & Htxt);
      [discriminate|reflexivity|reflexivity|].
    apply Htxt; reflexivity.
Defined.

Lemma load_unrecognized_shape_witness :
  let res := JObj 1 [("items", JArr 2 [])] in
  let o := step (next mount) (Settled PList 0 (Ok res)) in
  cancelled (next mount) = false /\ unrecognized res = true /\
  notes (next o) = [] /\ selectedId (next o) = JNull /\ toast (next o) = None /\
  isLoading (next o) = false /\ escaped o = None.
Proof.
  cbn zeta. split; [reflexivity|]. split; [reflexivity|].
  destruct (load_unrecognized_shape (next mount) 0%nat (JObj 1 [("items", JArr 2 [])])
              eq_refl eq_refl) as (Hn & _ & _ & Hl & He & _ & Hm & _).
  destruct (Hm eq_refl) as (Hs & Ht).
  repeat split; assumption.
Defined.

Lemma load_cancelled_is_noop_witness :
  let torn := next (step (next mount) Unmount) in
  let r := Ok (JArr 1 [JObj 2 Sample.foreign]) in
  step torn (Settled PList 0 r) = {| next := torn; issued := None; escaped := None |} /\
  notes torn = [] /\ selectedId torn = JNull /\ toast torn = None.
Proof.
  cbn zeta.
  destruct (load_cancelled_is_noop (next mount) 0%nat (Ok (JArr 1 [JObj 2 Sample.foreign])))
    as (Hnoop & _ & _ & _ & Hm).
  split; [exact Hnoop|]. exact (Hm eq_refl).
Defined.

Lemma create_flow_witness :
  let s0 := next (step (next mount) (Settled PList 0 (Ok (JArr 1 [])))) in
  let s1 := next (step s0 ClickNew) in
  let s2 := next (step (next (step s1 (InputTitle "Groceries"))) (InputContent "milk")) in
  notes s2 = [] /\
  issued (step s2 ClickSave) = Some (PCreate "Groceries" "milk") /\
  nullish Sample.groceries = false /\
  let o := step (next (step s2 ClickSave))
                (Settled (PCreate "Groceries" "milk") 0 (Ok Sample.groceries)) in
  List.length (notes (next o)) = 1%nat /\
  selectedId (next o) = JStr "n1" /\
  toast (next o) = success_toast "Note created.".
Proof.
  cbn zeta.
  set (s2 := next (step (next (step (next (step (next (step (next mount)
               (Settled PList 0 (Ok (JArr 1 []))))) ClickNew)) (InputTitle "Groceries")))
               (InputContent "milk"))).
  split; [reflexivity|]. split; [reflexivity|]. split; [reflexivity|].
  destruct (create_flow s2 ClickSave "Groceries" "milk" 0 Sample.groceries
              (or_introl eq_refl) eq_refl eq_refl)
    as (nz & t' & Hn & _ & Hnotes & Hsel & Ht & _).
  rewrite Hnotes, Hsel, Ht.
  vm_compute in Hn. injection Hn as <- <-. repeat split.
Defined.

Lemma blank_title_is_rejected_witness :
  trim "   " = "" /\
  issued (step Sample.blank SubmitForm) = None /\
  toast (next (step Sample.blank SubmitForm)) = error_toast "Title is required.".
Proof.
  split; [reflexivity|].
  destruct (blank_title_is_rejected Sample.blank SubmitForm "   " ""
              (or_intror eq_refl) eq_refl eq_refl eq_refl) as (Hi & Ht & _).
  split; assumption.
Defined.

Lemma filter_is_substring_match_witness :
  Forall dated [Sample.B; Sample.A] /\
  Forall Text.plain_note [Sample.B; Sample.A] /\
  filteredNotes [Sample.B; Sample.A] " ALPH " = Ok [Sample.A] /\
  filteredNotes [Sample.B; Sample.A] "SEC" = Ok [Sample.B] /\
  filteredNotes [Sample.B; Sample.A] "e" = Ok [Sample.B].
Proof.
  assert (Hd : Forall dated [Sample.B; Sample.A]).
  { repeat constructor; discriminate. }
  assert (Ht : Forall Text.plain_note [Sample.B; Sample.A]).
  { repeat constructor; eexists; split; reflexivity. }
  split; [exact Hd|]. split; [exact Ht|].
  rewrite (filter_is_substring_match _ " ALPH " Hd Ht eq_refl),
          (filter_is_substring_match _ "SEC" Hd Ht eq_refl),
          (filter_is_substring_match _ "e" Hd Ht eq_refl).
  repeat split.
Defined.

Lemma header_save_guard_witness :
  truthy (selectedId Sample.opened) = true /\ hasEdits Sample.opened = false /\
  can_fire Sample.opened ClickSave = false /\ can_fire Sample.edited ClickSave = true.
Proof.
  split; [reflexivity|]. split; [reflexivity|].
  split; [|reflexivity].
  apply (header_save_guard Sample.opened). right. right. split; reflexivity.
Defined.

Lemma network_failure_is_wrapped_witness :
  let down : Api.network := fun _ => Throw (TypeError "Failed to fetch") in
  Api.getApiBase Sample.some_env = "http://api" /\
  fst (Api.invoke Sample.some_env down Api.OpList) =
    Throw (Error "Network error contacting backend at http://api. Failed to fetch").
Proof.
  cbn zeta. split; [reflexivity|].
  destruct (network_failure_is_wrapped Sample.some_env (fun _ => Throw (TypeError "Failed to fetch"))
              Api.OpList (TypeError "Failed to fetch") eq_refl) as (E & _);
    [discriminate|reflexivity|].
  exact E.
Defined.

Lemma snippet_is_tidy_witness :
  Text.ascii_only Cases.messy = true /\
  View.blank_text Cases.messy = false /\
  View.snippet (JStr Cases.messy) = Ok "Buy milk and eggs" /\
  View.snippet (JStr "   ") = Ok "No content yet.".
Proof.
  split; [reflexivity|]. split; [reflexivity|].
  destruct (snippet_is_tidy Cases.messy eq_refl) as (r & E & _ & _ & _ & _ & Hr).
  destruct (snippet_is_tidy "   " eq_refl) as (r' & E' & _ & _ & _ & Hb & _).
  rewrite E, E', (Hr eq_refl), (Hb eq_refl). split; reflexivity.
Defined.

Lemma api_base_resolution_witness :
  Api.getApiBase Cases.both_env = "http://api" /\
  Contract.ends_with_slash (Api.getApiBase Cases.both_env) = false.
Proof.
  destruct (api_base_resolution Cases.both_env) as (Hs & Ha & _).
  split; [|exact Hs].
  rewrite (Ha "http://api//" eq_refl); [reflexivity|discriminate].
Defined.

Lemma refused_arguments_stay_local_witness :
  let net : Api.network := fun _ => Ok Cases.found in
  Api.accepted (Api.OpUpdate (JStr "") Cases.payload) = false /\
  Api.accepted (Api.OpCreate Cases.bad_payload) = false /\
  Api.invoke Sample.some_env net (Api.OpUpdate (JStr "") Cases.payload) =
    (Throw (Error "Missing note id."), []) /\
  Api.invoke Sample.no_env net (Api.OpCreate Cases.bad_payload) =
    (Throw Api.invalid_payload, []).
Proof.
  cbn zeta. split; [reflexivity|]. split; [reflexivity|]. split.
  - exact (refused_arguments_stay_local Sample.some_env (fun _ => Ok Cases.found)
             (Api.OpUpdate (JStr "") Cases.payload) eq_refl).
  - exact (refused_arguments_stay_local Sample.no_env (fun _ => Ok Cases.found)
             (Api.OpCreate Cases.bad_payload) eq_refl).
Defined.

Lemma wire_contract_witness :
  let net : Api.network := fun _ => Ok Cases.found in
  Api.accepted (Api.OpDelete (JStr "a")) = true /\
  Api.getApiBase Cases.both_env <> "" /\
  snd (Api.invoke Cases.both_env net (Api.OpDelete (JStr "a"))) =
    [{| Api.url := "http://api/notes/a"; Api.method := "DELETE"; Api.body := None;
        Api.headers := [("Content-Type", "application/json")] |}].
Proof.
  cbn zeta. split; [reflexivity|]. split; [discriminate|].
  rewrite (wire_contract Cases.both_env (fun _ => Ok Cases.found) (Api.OpDelete (JStr "a"))
             eq_refl); [reflexivity|discriminate].
Defined.

Lemma success_returns_body_witness :
  let net : Api.network := fun _ => Ok Cases.found in
  Api.ok Cases.found = true /\ Api.declares_json Cases.found = true /\
  fst (Api.invoke Sample.some_env net Api.OpList) = Ok (JArr 1 []).
Proof.
  cbn zeta. split; [reflexivity|]. split; [reflexivity|].
  rewrite (success_returns_body Sample.some_env (fun _ => Ok Cases.found) Api.OpList
             Cases.found eq_refl); [reflexivity|discriminate|reflexivity|reflexivity|discriminate].
Defined.

Lemma requests_are_accepted_witness :
  issued (step Sample.edited ClickSave) = Some (PUpdate (JStr "a") "Alpha 2" "first") /\
  Api.accepted (operation_of (PUpdate (JStr "a") "Alpha 2" "first")) = true.
Proof.
  split; [reflexivity|].
  apply (requests_are_accepted Sample.edited ClickSave _ eq_refl).
Defined.

Lemma in_flight_blocks_repeat_witness :
  let s' := next (step Sample.edited ClickSave) in
  issued (step Sample.edited ClickSave) = Some (PUpdate (JStr "a") "Alpha 2" "first") /\
  can_fire Sample.edited ClickSave = true /\
  isSaving s' = true /\ can_fire s' ClickSave = false /\ can_fire s' SubmitForm = false.
Proof.
  cbn zeta. split; [reflexivity|]. split; [reflexivity|].
  destruct (in_flight_blocks_repeat Sample.edited ClickSave _ eq_refl) as (Hf & (H1 & H2 & _) & _).
  split; [exact Hf|]. split; assumption.
Defined.

Lemma save_payload_is_trimmed_witness :
  Text.ascii_only "  Plan  " = true /\ Text.ascii_only "  indented  " = true /\
  trim "  Plan  " <> "" /\
  issued (step Cases.typed SubmitForm) = Some (PCreate "Plan" "  indented").
Proof.
  split; [reflexivity|]. split; [reflexivity|]. split; [discriminate|].
  destruct (save_payload_is_trimmed Cases.typed SubmitForm "  Plan  " "  indented  "
              (or_intror eq_refl) eq_refl eq_refl eq_refl eq_refl) as (E & _); [discriminate|].
  exact E.
Defined.

Lemma reset_restores_note_witness :
  let o := step Sample.edited ClickReset in
  draftTitle Sample.edited = JStr "Alpha 2" /\
  draftTitle (next o) = JStr "Alpha" /\ draftContent (next o) = JStr "first" /\
  can_fire Sample.edited ClickSave = true /\ can_fire (next o) ClickSave = false.
Proof.
  cbn zeta. split; [reflexivity|].
  destruct (reset_restores_note Sample.edited) as (_ & _ & _ & _ & _ & (D1 & D2) & _ & Hs).
  split; [exact D1|]. split; [exact D2|]. split; [reflexivity|]. exact (Hs eq_refl).
Defined.

Lemma open_note_loads_draft_witness :
  let o := step Sample.edited (OpenNote 1) in
  nth_error (visible Sample.edited) 1 = Some Sample.B /\
  selectedId (next o) = JStr "b" /\
  draftTitle (next o) = JStr "Beta" /\ draftContent (next o) = JStr "second" /\
  draftTitle (next (step Sample.edited (OpenNote 0))) = JStr "Alpha 2".
Proof.
  cbn zeta. split; [reflexivity|].
  destruct (open_note_loads_draft Sample.edited 1 Sample.B eq_refl)
    as (_ & _ & _ & _ & Hs & (m & Hm & _ & Hd) & _).
  destruct (open_note_loads_draft Sample.edited 0 Sample.A eq_refl)
    as (_ & _ & _ & _ & _ & _ & Hk).
  split; [exact Hs|].
  destruct (Hd eq_refl) as (D1 & D2). destruct (Hk eq_refl) as (K1 & _).
  vm_compute in Hm. injection Hm as <-.
  split; [exact D1|]. split; [exact D2|exact K1].
Defined.

Lemma burst_is_coalesced_witness :
  let h := Debounce.first_render 200 0 "" in
  let trace := [(50%nat, Debounce.Render "a"); (120%nat, Debounce.Render "al");
                (260%nat, Debounce.Timeout); (300%nat, Debounce.Render "alx")] in
  Debounce.rapid 200 200 "" trace /\
  Debounce.debounced (Debounce.play 200 h trace) = "" /\
  Debounce.value (Debounce.play 200 h trace) = "alx" /\
  Debounce.debounced (Debounce.timeout 499 (Debounce.play 200 h trace)) = "" /\
  Debounce.debounced (Debounce.timeout 500 (Debounce.play 200 h trace)) = "alx".
Proof.
  cbn zeta.
  assert (Hr : Debounce.rapid 200 200 ""
                 [(50%nat, Debounce.Render "a"); (120%nat, Debounce.Render "al");
                  (260%nat, Debounce.Timeout); (300%nat, Debounce.Render "alx")]).
  { cbn. repeat split; lia. }
  split; [exact Hr|].
  destruct (burst_is_coalesced 200 (Debounce.first_render 200 0 "") 200 _ eq_refl Hr)
    as (_ & Hd & Hv & _ & _).
  split; [exact Hd|]. split; [exact Hv|]. split; reflexivity.
Defined.

Lemma normalizeNote_shape_witness :
  nullish (JStr "not a record") = false /\
  (exists n t', normalizeNote 0 (JStr "not a record") = Ok (n, t') /\ Runs.canonical n /\
                field "title" n = JStr "" /\ t' = 2%nat) /\
  exists m, normalizeNote 0 JNull = Throw (TypeError m).
Proof.
  split; [reflexivity|].
  destruct (normalizeNote_shape 0 (JStr "not a record")) as (_ & Hok).
  destruct (normalizeNote_shape 0 JNull) as (Hbad & _).
  split; [|exact (Hbad eq_refl)].
  destruct (Hok eq_refl) as (n & t' & E & Hc & _).
  exists n, t'. split; [exact E|]. split; [exact Hc|].
  vm_compute in E. injection E as <- <-. split; reflexivity.
Defined.

Lemma renormalize_keeps_fields_witness :
  exists n n',
    normalizeNote 0 (JObj 1 Sample.foreign) = Ok (n, 1%nat) /\
    normalizeNote 5 (JObj 8 n) = Ok (n', 5%nat) /\
    field "id" n' = JStr "x1" /\ field "updatedAt" n' = JStr "2024-01-01" /\
    field "createdAt" n' = field "createdAt" n.
Proof.
  destruct (normalizeNote 0 (JObj 1 Sample.foreign)) as [[n t']|err] eqn:E;
    assert (E0 := E); vm_compute in E0; [|discriminate].
  injection E0 as <- <-.
  destruct (renormalize_keeps_fields 0 5 8 (JObj 1 Sample.foreign) _ 1 E)
    as (n' & E' & _ & _ & Hu & Hc & _ & Hi).
  eexists. exists n'. split; [reflexivity|]. split; [exact E'|].
  split; [exact Hi|]. split; [exact Hu|exact Hc].
Defined.

Lemma load_success_witness :
  let o := step (next mount) (Settled PList 0 (Ok Cases.envelope)) in
  cancelled (next mount) = false /\
  Runs.carries Cases.envelope Cases.records /\
  Forall (fun v => nullish v = false) Cases.records /\
  Forall (fun v => Text.texted v = true) Cases.records /\
  Text.texted Cases.numbered = false /\
  List.length (notes (next o)) = 2%nat /\
  selectedId (next o) = JStr "x1" /\ draftTitle (next o) = JStr "One" /\
  isLoading (next o) = false.
Proof.
  cbn zeta.
  assert (Hc : Runs.carries Cases.envelope Cases.records).
  { right. exists 1%nat, 4%nat, [("notes", JArr 4 Cases.records)]. split; reflexivity. }
  assert (Hall : Forall (fun v => nullish v = false) Cases.records).
  { repeat constructor. }
  assert (Htx : Forall (fun v => Text.texted v = true) Cases.records).
  { repeat constructor. }
  split; [reflexivity|]. split; [exact Hc|]. split; [exact Hall|]. split; [exact Htx|].
  split; [reflexivity|].
  destruct (load_success (next mount) 0 Cases.envelope Cases.records eq_refl Hc Hall Htx)
    as (ns & t' & E & Hlen & _ & _ & _ & _ & Hn & _ & Hl & _ & _ & Hfirst).
  cbn zeta in Hn, Hl, Hfirst. rewrite Hn, Hlen.
  split; [reflexivity|].
  vm_compute in E. injection E as <- <-.
  destruct (Hfirst _ _ eq_refl eq_refl eq_refl) as (Hs & Ht & _).
  split; [exact Hs|]. split; [exact Ht|exact Hl].
Defined.

Lemma load_rejects_bad_list_witness :
  let res := JArr 1 [JObj 2 Sample.foreign; JNull] in
  let o := step (next mount) (Settled PList 0 (Ok res)) in
  notes (next o) = [] /\ selectedId (next o) = JNull /\
  (exists m, toast (next o) = error_toast m) /\ isLoading (next o) = false.
Proof.
  cbn zeta.
  destruct (load_rejects_bad_list (next mount) 0 (JArr 1 [JObj 2 Sample.foreign; JNull]) eq_refl)
    as ((Hn & Hs & _) & Ht & Hl & _).
  { left. exists [JObj 2 Sample.foreign; JNull]. split.
    - left. exists 1%nat. reflexivity.
    - apply Exists_cons_tl. apply Exists_cons_hd. reflexivity. }
  split; [symmetry; exact Hn|]. split; [symmetry; exact Hs|]. split; assumption.
Defined.

Lemma save_without_record_fails_witness :
  let o := step Sample.edited (Settled (PUpdate (JStr "a") "Alpha 2" "first") 0 (Ok JNull)) in
  notes (next o) = notes Sample.edited /\
  (exists m, toast (next o) = error_toast m) /\ isSaving (next o) = false.
Proof.
  cbn zeta.
  destruct (save_without_record_fails Sample.edited (PUpdate (JStr "a") "Alpha 2" "first") 0 JNull)
    as ((Hn & _) & Ht & Hs & _); [right; eauto|reflexivity|].
  split; [symmetry; exact Hn|]. split; assumption.
Defined.

Lemma update_replaces_entry_witness :
  Forall Runs.canonical (notes Sample.edited) /\
  notes (next (step Sample.edited
                 (Settled (PUpdate (JStr "a") "Alpha 2" "first") 0 (Ok Sample.updatedA)))) =
    [Sample.mergedA; Sample.B].
Proof.
  assert (Hc : Forall Runs.canonical (notes Sample.edited)) by (repeat constructor).
  split; [exact Hc|].
  destruct (update_replaces_entry Sample.edited (JStr "a") "Alpha 2" "first" 0
              Sample.updatedA Hc eq_refl) as (nz & t' & E & Hn).
  rewrite Hn. vm_compute in E. injection E as <- <-. reflexivity.
Defined.

Lemma collection_stays_canonical_witness :
  Forall Runs.canonical (notes Sample.opened) /\
  Forall Runs.canonical
    (notes (next (step Sample.opened (Settled (PCreate "G" "m") 0 (Ok Sample.groceries))))).
Proof.
  assert (Hc : Forall Runs.canonical (notes Sample.opened)) by (repeat constructor).
  split; [exact Hc|].
  apply (collection_stays_canonical Sample.opened _ Hc).
Defined.

Lemma visible_list_is_stable_witness :
  Forall dated [Sample.B; Sample.A; Cases.C] /\
  filteredNotes [Sample.B; Sample.A; Cases.C] "" = Ok [Sample.A; Cases.C; Sample.B] /\
  filteredNotes [Sample.B; Cases.C; Sample.A] "" = Ok [Cases.C; Sample.A; Sample.B].
Proof.
  assert (Hd : Forall dated [Sample.B; Sample.A; Cases.C]).
  { repeat constructor; discriminate. }
  split; [exact Hd|].
  destruct (visible_list_is_stable [Sample.B; Sample.A; Cases.C] 200 Hd) as (base & E & _).
  split; [rewrite E; vm_compute in E; injection E as <-; reflexivity|reflexivity].
Defined.
